(** * Enafore: dual-protocol timeline and interaction engine

    A shallow embedding of the timeline merge engine, the Protocol-B
    (ATProto) normalizer, the like / repost / delete actions and the feed
    cursor persistence of the Enafore client, with the properties that its
    specification states about them.

    Layout: the embedding (data model and operations, one module per source
    file) comes first, the lemmas and theorems follow. *)

From Stdlib Require Import ZArith String Ascii List Lia.
From stdpp Require Import base option list gmap strings sets sorting.

Local Open Scope string_scope.
Local Open Scope Z_scope.
Local Open Scope list_scope.

(* ===================================================================== *)
(** * JavaScript values used by the actions *)
(* ===================================================================== *)

Module Js.

(** A string-valued property that may be absent ([undefined] / [null]). *)
Definition optstr := option string.

(** [!!v] for a possibly absent string: only a non-empty string is truthy. *)
Definition truthy (v : optstr) : bool :=
  match v with
  | Some s => negb (String.eqb s EmptyString)
  | None => false
  end.


(** [s.split(sep)] for a one-character separator: the result is never
    empty, and [''.split('/')] is [['']]. *)
Fixpoint split (sep : ascii) (s : string) : list string :=
  match s with
  | EmptyString => [EmptyString]
  | String c s' =>
      if Ascii.eqb c sep then EmptyString :: split sep s'
      else match split sep s' with
           | [] => [String c EmptyString]
           | h :: t => String c h :: t
           end
  end.

(** The one-character string made of a double quote. *)
Definition doubleQuote : string := String (Ascii.ascii_of_nat 34) EmptyString.

(** [s.startsWith(p)] *)
Definition startsWith (s p : string) : bool := String.prefix p s.

(** [s.substring(n)] *)
Definition substringFrom (n : nat) (s : string) : string :=
  String.substring n (String.length s - n) s.

End Js.

(* ===================================================================== *)
(** * Timeline item summaries and the helpers of [_utils] *)
(* ===================================================================== *)

(** Modelled from the spec: the summary projection produced by
    [_utils/timelineItemToSummary.ts] (not part of the sources at hand).
    The spec gives it as [{id, sortKey, type}], with [sortKey] a comparable
    value derived from the creation time. *)
Record Summary := mkSummary {
  su_id : string;
  su_sortKey : Z;
  su_type : string
}.

Global Instance Summary_eq_dec : EqDecision Summary.
Proof. solve_decision. Defined.

(** Modelled from the spec: [isEqual] of [_utils/lodash-lite.js], the
    deep-equality test used to skip redundant store writes.  The first
    argument may be [undefined]. *)
Definition isEqual (old : option (list Summary)) (new : list Summary) : bool :=
  bool_decide (old = Some new).

(** Modelled from the spec: [concat] of [_utils/arrays.js], plain
    concatenation ("concatenate-then-dedupe"). *)
Definition concat (l r : list Summary) : list Summary := l ++ r.

(** The loop of [uniqById], with the set of ids met so far. *)
Fixpoint uniqByIdFrom (seen : gset string) (l : list Summary) : list Summary :=
  match l with
  | [] => []
  | x :: l' =>
      if decide (su_id x ∈ seen) then uniqByIdFrom seen l'
      else x :: uniqByIdFrom ({[su_id x]} ∪ seen) l'
  end.

(** Modelled from the spec: [uniqById] of [_utils/lodash-lite.js],
    "id-based de-duplication".  One entry per id is kept, in list order; as
    for the lodash function it is named after, the entry kept is the first
    one met. *)
Definition uniqById (l : list Summary) : list Summary := uniqByIdFrom ∅ l.

(** Modelled from the spec: [compareTimelineItemSummaries] of
    [_utils/statusIdSorting.js].  Summaries are compared on their sort key;
    the result is positive when the first argument is the more recent one. *)
Definition compareTimelineItemSummaries (a b : Summary) : Z :=
  su_sortKey a - su_sortKey b.

(** Modelled from the spec: [mergeArrays(left, right, comparator)] of
    [_utils/arrays.js].  A two-pointer merge that "preserves the
    comparator-defined order" (most recent first); on a tie the entry of the
    right (new) array is emitted first, so that after [uniqById] "the new
    one wins". *)
Fixpoint mergeArrays (comparator : Summary -> Summary -> Z)
    (left right : list Summary) {struct left} : list Summary :=
  let fix go (right : list Summary) {struct right} : list Summary :=
    match left, right with
    | [], _ => right
    | _, [] => left
    | o :: left', n :: right' =>
        if 0 <=? comparator n o
        then n :: go right'
        else o :: mergeArrays comparator left' right
    end
  in go right.

(** The ids of a list of summaries, as a set. *)
Definition idsOf (l : list Summary) : gset string := list_to_set (su_id <$> l).

(** A list is ordered by the timeline comparator when every entry compares
    as at least as recent as each entry after it. *)
Definition orderedByComparator (l : list Summary) : Prop :=
  StronglySorted (fun a b => 0 <= compareTimelineItemSummaries a b) l.

(** The sort key of a summary is a function of its id (ids are stable
    across fetches, and the key is derived from the creation time). *)
Definition sortKeysStable (l : list Summary) : Prop :=
  forall a b, a ∈ l -> b ∈ l -> su_id a = su_id b -> su_sortKey a = su_sortKey b.




(** Modelled from the spec: the two sorts of [_utils/sortItemSummaries.ts],
    which the spec leaves open ("a pluggable strategy", "a distinct
    thread-order comparator"). *)
Class SortItemSummaries := {
  sortItemSummariesForThread : list Summary -> option string -> list Summary;
  sortItemSummariesForNotificationBatch : list Summary -> list Summary
}.

(** What the merge engine relies on: both sorts reorder their argument and
    do nothing else, and the thread order of a set of summaries does not
    depend on the order they come in. *)
Class SortItemSummariesLaws (S : SortItemSummaries) : Prop := {
  sortThread_perm : forall l sid, sortItemSummariesForThread l sid ≡ₚ l;
  sortThread_canonical : forall l1 l2 sid,
    l1 ≡ₚ l2 -> sortItemSummariesForThread l1 sid = sortItemSummariesForThread l2 sid;
  sortNotification_perm : forall l, sortItemSummariesForNotificationBatch l ≡ₚ l
}.

(* ===================================================================== *)
(** * The store ([_store/store.js]) *)
(* ===================================================================== *)

Inductive Protocol := ActivityPub | Atproto.

Global Instance Protocol_eq_dec : EqDecision Protocol.
Proof. solve_decision. Defined.

(** The copy of a post that [store.getPostByUri] hands back; only the two
    reference ids read by the actions are kept. *)
Record CachedPost := mkCachedPost {
  my_like_uri : Js.optstr;
  my_repost_uri : Js.optstr
}.

(** The part of the store state that the actions below read and write.
    Timeline data is keyed by (instance name, timeline name).  The getter
    [getPostByUri] is called by the actions but defined nowhere in the
    sources at hand; it is carried as a component of the store. *)
Record PinaforeStore := mkStore {
  online : bool;
  currentInstance : string;
  accessToken : string;
  currentAccountProtocol : option Protocol;
  timelineItemSummaries : gmap (string * string) (list Summary);
  timelineItemSummariesToAdd : gmap (string * string) (list Summary);
  timelineItemSummariesAreStale : gmap (string * string) bool;
  timelineNextPageId : gmap (string * string) Js.optstr;
  getPostByUri : string -> option CachedPost
}.

(** The object literal passed to [store.setForTimeline]. *)
Inductive TimelinePatch :=
| PatchTimelineItemSummaries (l : list Summary)
| PatchTimelineItemSummariesToAdd (l : list Summary)
| PatchTimelineItemSummariesAreStale (b : bool)
| PatchTimelineNextPageId (c : Js.optstr).

(** Modelled from the spec: [store.setForTimeline(instance, timeline, patch)]
    of the timeline mixins (not part of the sources at hand): a keyed write. *)
Definition setForTimeline (st : PinaforeStore) (instanceName timelineName : string)
    (p : TimelinePatch) : PinaforeStore :=
  let k := (instanceName, timelineName) in
  match p with
  | PatchTimelineItemSummaries l =>
      mkStore (online st) (currentInstance st) (accessToken st) (currentAccountProtocol st)
        (<[k := l]> (timelineItemSummaries st)) (timelineItemSummariesToAdd st)
        (timelineItemSummariesAreStale st) (timelineNextPageId st) (getPostByUri st)
  | PatchTimelineItemSummariesToAdd l =>
      mkStore (online st) (currentInstance st) (accessToken st) (currentAccountProtocol st)
        (timelineItemSummaries st) (<[k := l]> (timelineItemSummariesToAdd st))
        (timelineItemSummariesAreStale st) (timelineNextPageId st) (getPostByUri st)
  | PatchTimelineItemSummariesAreStale b =>
      mkStore (online st) (currentInstance st) (accessToken st) (currentAccountProtocol st)
        (timelineItemSummaries st) (timelineItemSummariesToAdd st)
        (<[k := b]> (timelineItemSummariesAreStale st)) (timelineNextPageId st) (getPostByUri st)
  | PatchTimelineNextPageId c =>
      mkStore (online st) (currentInstance st) (accessToken st) (currentAccountProtocol st)
        (timelineItemSummaries st) (timelineItemSummariesToAdd st)
        (timelineItemSummariesAreStale st) (<[k := c]> (timelineNextPageId st)) (getPostByUri st)
  end.

(** Modelled from the spec: [store.getForTimeline(instance, timeline, key)],
    one getter per key read by the actions; [None] is [undefined]. *)
Definition getForTimeline_timelineItemSummaries (st : PinaforeStore)
    (instanceName timelineName : string) : option (list Summary) :=
  timelineItemSummaries st !! (instanceName, timelineName).

Definition getForTimeline_timelineItemSummariesAreStale (st : PinaforeStore)
    (instanceName timelineName : string) : option bool :=
  timelineItemSummariesAreStale st !! (instanceName, timelineName).


(* ===================================================================== *)
(** * The timeline merge engine ([_actions/timeline.js]) *)
(* ===================================================================== *)

Module Timeline.
Section Merge.
Context `{SortItemSummaries}.

(** [const [type, statusId] = timelineName.split('/')] *)
Definition timelineType (timelineName : string) : string :=
  hd EmptyString (Js.split "/" timelineName).

Definition timelineStatusId (timelineName : string) : option string :=
  Js.split "/" timelineName !! 1%nat.

(** The batch as it enters the merge: notification batches are sorted first. *)
Definition batchForMerge (timelineName : string) (newSummaries : list Summary)
    : list Summary :=
  if String.eqb (timelineType timelineName) "notifications"
  then sortItemSummariesForNotificationBatch newSummaries
  else newSummaries.

(** The last step of both merges: threads get their own order. *)
Definition threadOrder (timelineName : string) (mergedSummaries : list Summary)
    : list Summary :=
  if String.eqb (timelineType timelineName) "status"
  then sortItemSummariesForThread mergedSummaries (timelineStatusId timelineName)
  else mergedSummaries.

(** [mergedSummaries] of [addPagedTimelineItemSummaries] ("load older"). *)
Definition pagedMergedSummaries (timelineName : string)
    (oldSummaries : option (list Summary)) (newSummaries : list Summary)
    : list Summary :=
  let newSummaries := batchForMerge timelineName newSummaries in
  let mergedSummaries := uniqById (concat (default [] oldSummaries) newSummaries) in
  threadOrder timelineName mergedSummaries.

(** [mergedSummaries] of [addTimelineItemSummaries] (background refresh). *)
Definition mergedSummaries (timelineName : string)
    (oldSummaries : option (list Summary)) (newSummaries : list Summary)
    : list Summary :=
  let newSummaries := batchForMerge timelineName newSummaries in
  let mergedSummaries :=
    uniqById (mergeArrays compareTimelineItemSummaries
                (default [] oldSummaries) newSummaries) in
  threadOrder timelineName mergedSummaries.

Definition addPagedTimelineItemSummaries (st : PinaforeStore)
    (instanceName timelineName : string) (newSummaries : list Summary)
    : PinaforeStore :=
  let oldSummaries := getForTimeline_timelineItemSummaries st instanceName timelineName in
  let merged := pagedMergedSummaries timelineName oldSummaries newSummaries in
  if isEqual oldSummaries merged then st
  else setForTimeline st instanceName timelineName (PatchTimelineItemSummaries merged).

Definition addTimelineItemSummaries (st : PinaforeStore)
    (instanceName timelineName : string) (newSummaries : list Summary)
    (newStale : bool) : PinaforeStore :=
  let oldSummaries := getForTimeline_timelineItemSummaries st instanceName timelineName in
  let oldStale := getForTimeline_timelineItemSummariesAreStale st instanceName timelineName in
  let merged := mergedSummaries timelineName oldSummaries newSummaries in
  let st1 :=
    if isEqual oldSummaries merged then st
    else setForTimeline st instanceName timelineName (PatchTimelineItemSummaries merged) in
  if bool_decide (oldStale = Some newStale) then st1
  else setForTimeline st1 instanceName timelineName
         (PatchTimelineItemSummariesAreStale newStale).

End Merge.
End Timeline.

(** A reference strategy: both sorts are a merge sort on a fixed total
    order of summaries (the order of their encodings). *)
Global Instance Summary_countable : Countable Summary.
Proof.
  refine (inj_countable' (fun s => (su_id s, su_sortKey s, su_type s))
            (fun t => mkSummary (fst (fst t)) (snd (fst t)) (snd t)) _).
  by intros [].
Defined.

Definition summaryLe (a b : Summary) : Prop := (encode a <= encode b)%positive.

Global Instance summaryLe_dec : RelDecision summaryLe.
Proof. intros a b. unfold summaryLe. apply _. Defined.

Definition referenceSorts : SortItemSummaries := {|
  sortItemSummariesForThread := fun l _ => merge_sort summaryLe l;
  sortItemSummariesForNotificationBatch := fun l => merge_sort summaryLe l
|}.


(* ===================================================================== *)
(** * The Protocol-B normalizer ([_api_atproto/timelines.js]) *)
(* ===================================================================== *)

Module Normalizer.

(** ** Wire shapes (ATProto views); a field the code guards against is an
    [option], the others are as the lexicon requires them. *)

Record ProfileViewBasic := mkProfile {
  did : string;
  handle : string;
  displayName : Js.optstr;
  avatar : Js.optstr;
  profileLabels : list string        (* [labels?.map(l => l.val) || []] *)
}.

Record PostRecord := mkPostRecord {
  text : Js.optstr;
  recordCreatedAt : Js.optstr;
  via : Js.optstr
}.

Record ViewerState := mkViewer {
  like : Js.optstr;
  repost : Js.optstr
}.

Record ReplyParent := mkReplyParent {
  parentUri : string;
  parentAuthorDid : string
}.

Record ReplyRef := mkReplyRef {
  parent : option ReplyParent;
  root : Js.optstr                   (* [reply.root.uri] when [reply.root] is there *)
}.

Record PostView := mkPostView {
  uri : string;
  cid : Js.optstr;
  author : option ProfileViewBasic;
  record : option PostRecord;
  replyCount : option Z;
  repostCount : option Z;
  likeCount : option Z;
  indexedAt : Js.optstr;
  viewer : option ViewerState;
  labels : list string;              (* [labels?.map(l => l.val) || []] *)
  postReply : option ReplyRef        (* [post.reply], read for a reposted post *)
}.

Record Reason := mkReason {
  reasonType : string;               (* [$type] *)
  by_ : ProfileViewBasic;
  reasonIndexedAt : Js.optstr
}.

Record FeedViewPost := mkFeedViewPost {
  post : option PostView;
  reply : option ReplyRef;
  reason : option Reason
}.

(** ** Canonical shapes *)

Record Account := mkAccount {
  acc_id : string;
  acc_did : string;
  acc_username : string;
  acc_acct : string;
  acc_displayName : string;
  acc_avatar : Js.optstr;
  acc_url : string
}.

(** The canonical status.  The plain status and the repost wrapper are two
    object literals with partly different keys ([author] / [account],
    [spoiler_text] / [spoilerText]); a key an object does not have is
    [None].  Embeds, facets and constant display fields are left out: no
    property below reads them. *)
Inductive Status := mkStatus {
  id : string;
  statusUri : string;
  url : string;
  content : string;
  createdAt : Js.optstr;
  statusAuthor : option (option Account);     (* key [author] *)
  account : option (option Account);          (* key [account] *)
  reblog : option Status;
  statusReplyCount : Z;
  statusRepostCount : Z;
  statusLikeCount : Z;
  myLikeUri : Js.optstr;
  myRepostUri : Js.optstr;
  favorited : bool;
  reblogged : bool;
  replyParentUri : Js.optstr;
  replyRootUri : Js.optstr;
  in_reply_to_id : Js.optstr;
  in_reply_to_account_id : Js.optstr;
  sensitive : bool;
  spoiler_text : option string;               (* key [spoiler_text] *)
  spoilerText : option string;                (* key [spoilerText] *)
  statusCid : Js.optstr;
  statusIndexedAt : Js.optstr
}.

(** [s.includes('.') ? s.substring(s.indexOf('.') + 1) : fallback] *)
Fixpoint afterFirstDot (s : string) : option string :=
  match s with
  | EmptyString => None
  | String c s' => if Ascii.eqb c "." then Some s' else afterFirstDot s'
  end.

(** [a || b] on possibly absent strings. *)
Definition orElse (a : Js.optstr) (b : string) : string :=
  match a with
  | Some s => if String.eqb s EmptyString then b else s
  | None => b
  end.

Definition orNull (a : Js.optstr) : Js.optstr :=
  if Js.truthy a then a else None.

(** [transformProfileViewBasicToEnaforeAccount] ([_api_atproto/posts.js]);
    [None] is [null]. *)
Definition transformProfileViewBasicToEnaforeAccount
    (profileViewBasic : option ProfileViewBasic) (pdsHostname : Js.optstr)
    : option Account :=
  match profileViewBasic with
  | None => None
  | Some p =>
      if String.eqb (did p) EmptyString || String.eqb (handle p) EmptyString then None
      else
        let accHostname :=
          orElse pdsHostname (default "unknown.pds" (afterFirstDot (handle p))) in
        Some {| acc_id := did p;
                acc_did := did p;
                acc_username := handle p;
                acc_acct := handle p +:+ "@" +:+ accHostname;
                acc_displayName := orElse (displayName p) (handle p);
                acc_avatar := orNull (avatar p);
                acc_url := "https://bsky.app/profile/" +:+ did p |}
  end.

(** [post.uri.split('/').pop()] *)
Definition lastSegment (s : string) : string :=
  List.last (Js.split "/" s) EmptyString.

Definition sensitiveCategories : list string :=
  ["porn"; "sexual"; "nudity"; "gore"; "corpse"; "self-harm"].

Definition has (l : list string) (s : string) : bool := bool_decide (s ∈ l).

(** The label block at the end of the transform: the pair
    [(sensitive, spoiler_text)]. *)
Definition labelWarnings (postLabels authorLabels : list string) : bool * string :=
  let allApplicableLabels := postLabels ++ authorLabels in
  let sensitive0 := existsb (has allApplicableLabels) sensitiveCategories in
  let sensitive1 := if has allApplicableLabels "nsfw" && negb sensitive0
                    then true else sensitive0 in
  let '(sensitive2, spoiler2) :=
    if has postLabels "!warn" then (true, "Content Warning") else (sensitive1, EmptyString) in
  if has allApplicableLabels "hide" then
    if negb sensitive2
    then (true, if String.eqb spoiler2 EmptyString then "Content Warning (moderation)" else spoiler2)
    else (sensitive2, spoiler2)
  else (sensitive2, spoiler2).

(** The status built from a post that passed the guard, on the path taken
    when the feed item carries no repost reason. *)
Definition plainStatus (p : PostView) (a : ProfileViewBasic) (reply : option ReplyRef)
    : Status :=
  let replyParent := reply ≫= parent in
  let warnings := labelWarnings (labels p) (profileLabels a) in
  {| id := uri p;
     statusUri := uri p;
     url := "https://bsky.app/profile/" +:+ did a +:+ "/post/" +:+ lastSegment (uri p);
     content := orElse (record p ≫= text) EmptyString;
     createdAt := record p ≫= recordCreatedAt;
     statusAuthor := Some (transformProfileViewBasicToEnaforeAccount (Some a) None);
     account := None;
     reblog := None;
     statusReplyCount := default 0 (replyCount p);
     statusRepostCount := default 0 (repostCount p);
     statusLikeCount := default 0 (likeCount p);
     myLikeUri := viewer p ≫= like;
     myRepostUri := viewer p ≫= repost;
     favorited := Js.truthy (viewer p ≫= like);
     reblogged := Js.truthy (viewer p ≫= repost);
     replyParentUri := parentUri <$> replyParent;
     replyRootUri := reply ≫= root;
     in_reply_to_id := parentUri <$> replyParent;
     in_reply_to_account_id := parentAuthorDid <$> replyParent;
     sensitive := fst warnings;
     spoiler_text := Some (snd warnings);
     spoilerText := None;
     statusCid := cid p;
     statusIndexedAt := indexedAt p |}.

Definition reasonRepost : string := "app.bsky.feed.defs#reasonRepost".

(** The wrapper returned for a feed item whose reason is a repost. *)
Definition repostStatus (sessionDid : Js.optstr) (p : PostView) (r : Reason)
    (originalPostTransformed : Status) : Status :=
  let reposterAccount := transformProfileViewBasicToEnaforeAccount (Some (by_ r)) None in
  let syntheticRepostId := "repost:" +:+ did (by_ r) +:+ ":" +:+ uri p in
  let mine := bool_decide (Some (did (by_ r)) = sessionDid) in
  {| id := syntheticRepostId;
     statusUri := syntheticRepostId;
     url := url originalPostTransformed;
     content := EmptyString;
     createdAt := reasonIndexedAt r;
     statusAuthor := None;
     account := Some reposterAccount;
     reblog := Some originalPostTransformed;
     statusReplyCount := 0;
     statusRepostCount := 0;
     statusLikeCount := 0;
     myLikeUri := None;
     myRepostUri := if mine then viewer p ≫= repost else None;
     favorited := false;
     reblogged := mine;
     replyParentUri := None;
     replyRootUri := None;
     in_reply_to_id := None;
     in_reply_to_account_id := None;
     sensitive := sensitive originalPostTransformed;
     spoiler_text := None;
     spoilerText := spoiler_text originalPostTransformed;
     statusCid := None;
     statusIndexedAt := reasonIndexedAt r |}.

(** The transform on an item without a repost reason: the guard, then the
    plain status.  This is also what the recursive call for the original
    of a repost runs, since it passes [reason: null]. *)
Definition transformWithoutReason (feedViewPost : option FeedViewPost)
    : option Status :=
  match feedViewPost with
  | None => None
  | Some fvp =>
      match post fvp with
      | None => None
      | Some p =>
          match author p with
          | None => None
          | Some a => Some (plainStatus p a (reply fvp))
          end
      end
  end.

(** [transformAtprotoPostToEnaforeStatus(feedViewPost)]; [None] is [null].
    [sessionDid] is [getActiveSessionData()?.did]. *)
Definition transformAtprotoPostToEnaforeStatus (sessionDid : Js.optstr)
    (feedViewPost : option FeedViewPost) : option Status :=
  match feedViewPost with
  | None => None
  | Some fvp =>
      match post fvp with
      | None => None
      | Some p =>
          match author p with
          | None => None
          | Some a =>
              match reason fvp with
              | Some r =>
                  if String.eqb (reasonType r) reasonRepost then
                    match transformWithoutReason
                            (Some {| post := Some p; reply := postReply p;
                                     reason := None |}) with
                    | None => None
                    | Some originalPostTransformed =>
                        Some (repostStatus sessionDid p r originalPostTransformed)
                    end
                  else Some (plainStatus p a (reply fvp))
              | None => Some (plainStatus p a (reply fvp))
              end
          end
      end
  end.

(** The feed item is structurally invalid: it is missing, or its post or
    the post's author is. *)
Definition structurallyInvalid (feedViewPost : option FeedViewPost) : Prop :=
  match feedViewPost with
  | None => True
  | Some fvp =>
      match post fvp with
      | None => True
      | Some p => author p = None
      end
  end.

(** The payload of a feed response ([response.data]). *)
Record FeedResponse := mkFeedResponse {
  feed : list (option FeedViewPost);
  cursor : Js.optstr
}.

Record Headers := mkHeaders {
  _atproto_cursor : Js.optstr;
  link : string
}.

Inductive Outcome (A : Type) :=
| Returned (a : A)
| Thrown (message : string).
Arguments Returned {A} a.
Arguments Thrown {A} message.

(** [getTimeline(algorithm, limit, cursor)], once the agent has answered
    with [response]: the items are the feed mapped through the transform,
    as they come. *)
Definition getTimeline (sessionDid : Js.optstr) (response : FeedResponse)
    : Outcome (list (option Status) * Headers) :=
  match sessionDid with
  | None => Thrown "No active session. Please login first."
  | Some _ =>
      let items := map (transformAtprotoPostToEnaforeStatus sessionDid) (feed response) in
      let headers :=
        {| _atproto_cursor := cursor response;
           link := if Js.truthy (cursor response)
                   then "<url_placeholder?cursor=" +:+ default EmptyString (cursor response)
                        +:+ ">; rel=" +:+ Js.doubleQuote +:+ "next" +:+ Js.doubleQuote
                   else EmptyString |} in
      Returned (items, headers)
  end.

End Normalizer.

(* ===================================================================== *)
(** * Like and repost ([_actions/favorite.js], [_actions/reblog.js]) *)
(* ===================================================================== *)

Module Interaction.

(** The object bundle that stands for a Protocol-B post:
    [{ uri, cid, likeUri, repostUri }]. *)
Record Bundle := mkBundle {
  uri : Js.optstr;
  cid : Js.optstr;
  likeUri : Js.optstr;
  repostUri : Js.optstr
}.

(** The [statusId] argument: a plain id string (Protocol A) or a bundle
    (Protocol B); the actions tell them apart by the fields they find. *)
Inductive StatusRef :=
| IdString (s : string)
| IdBundle (b : Bundle).

(** [const { uri, cid, likeUri, repostUri } = statusId]: a string has none
    of these properties. *)
Definition fields (statusId : StatusRef) : Bundle :=
  match statusId with
  | IdString _ => mkBundle None None None None
  | IdBundle b => b
  end.

(** [statusId.likeUri = v] and [statusId.repostUri = v], on the bundle the
    caller passed. *)
Definition withLikeUri (statusId : StatusRef) (v : Js.optstr) : StatusRef :=
  match statusId with
  | IdString s => IdString s
  | IdBundle b => IdBundle (mkBundle (uri b) (cid b) v (repostUri b))
  end.

Definition withRepostUri (statusId : StatusRef) (v : Js.optstr) : StatusRef :=
  match statusId with
  | IdString s => IdString s
  | IdBundle b => IdBundle (mkBundle (uri b) (cid b) (likeUri b) v)
  end.

(** What the actions ask of their collaborators, in the order they ask. *)
Inductive Toast :=
| Say (message : string)                          (* [toast.say(message)] *)
| SayFormatted (key : string) (error : string).   (* [toast.say(formatIntl(key, { error }))] *)

Inductive NetworkCall :=
| likePost (uri cid : Js.optstr)
| deleteLike (likeUri : Js.optstr)
| apFavoriteStatus (instanceName accessToken : string) (statusId : StatusRef)
| apUnfavoriteStatus (instanceName accessToken : string) (statusId : StatusRef)
| repostPost (uri cid : Js.optstr)
| deleteRepost (repostUri : Js.optstr)
| apReblogStatus (instanceName accessToken : string) (statusId : StatusRef)
| apUnreblogStatus (instanceName accessToken : string) (statusId : StatusRef).

Inductive StoreCall :=
| setStatusFavorited (instanceName : string) (statusId : StatusRef)
    (favorited : bool) (protocol : option Protocol) (undo : bool)
| setStatusReblogged (instanceName : string) (statusId : StatusRef)
    (reblogged : bool) (protocol : option Protocol) (undo : bool)
| setPostLikeUri (instanceName : string) (postUri : Js.optstr)
    (likeRecordUri : Js.optstr) (isLiked : bool)
| setPostRepostUri (instanceName : string) (postUri : Js.optstr)
    (repostRecordUri : Js.optstr) (isReposted : bool).

Inductive DatabaseCall :=
| dbSetStatusFavorited (instanceName : string) (statusId : StatusRef) (favorited : bool)
| dbSetStatusReblogged (instanceName : string) (statusId : StatusRef) (reblogged : bool).

Inductive Event :=
| toast (t : Toast)
| network (c : NetworkCall)
| store (c : StoreCall)
| database (c : DatabaseCall).

(** How the awaited network promise settles: with a response (of which
    only [response.uri] is read) or with an error (of which only
    [e.message] is read). *)
Inductive Settled :=
| Resolved (responseUri : Js.optstr)
| Rejected (message : Js.optstr).

(** The outside world of one action: the network answer, and the error
    message with which the database write rejects, if it does. *)
Record World := mkWorld {
  networkAnswer : Settled;
  databaseError : option Js.optstr
}.

Definition messageOf (m : Js.optstr) : string := Normalizer.orElse m EmptyString.

Definition isAtproto (protocol : option Protocol) : bool :=
  bool_decide (protocol = Some Atproto).

(** [setFavorited(statusId, favorited)]: the requests it issues, in order. *)
Definition setFavorited (st : PinaforeStore) (statusId : StatusRef)
    (favorited : bool) (w : World) : list Event :=
  if negb (online st) then
    [toast (Say (if favorited then "intl.cannotFavoriteOffline"
                 else "intl.cannotUnfavoriteOffline"))]
  else
    let currentInstance := currentInstance st in
    let accessToken := accessToken st in
    let currentAccountProtocol := currentAccountProtocol st in
    (* the branch that builds [networkPromise]; [inl] is an early return *)
    let prepared : list Event + (StatusRef * NetworkCall) :=
      if isAtproto currentAccountProtocol then
        let b := fields statusId in
        if negb (Js.truthy (uri b)) || negb (Js.truthy (cid b)) then
          inl [toast (Say "Error: Missing post information for like action.")]
        else if negb favorited && negb (Js.truthy (likeUri b)) then
          match getPostByUri st (default EmptyString (uri b)) with
          | Some postInStore =>
              if Js.truthy (my_like_uri postInStore) then
                let statusId := withLikeUri statusId (my_like_uri postInStore) in
                if negb (Js.truthy (likeUri (fields statusId))) then
                  inl [toast (Say "Error: Cannot unlike, like information missing.")]
                else inr (statusId, deleteLike (likeUri (fields statusId)))
              else inl [toast (Say "Error: Cannot unlike, like information missing.")]
          | None => inl [toast (Say "Error: Cannot unlike, like information missing.")]
          end
        else
          inr (statusId,
               if favorited then likePost (uri b) (cid b)
               else deleteLike (likeUri (fields statusId)))
      else
        inr (statusId,
             if favorited then apFavoriteStatus currentInstance accessToken statusId
             else apUnfavoriteStatus currentInstance accessToken statusId)
    in
    match prepared with
    | inl events => events
    | inr (statusId, networkPromise) =>
        let idForStoreModification :=
          if isAtproto currentAccountProtocol
          then IdString (default EmptyString (uri (fields statusId)))
          else statusId in
        let undo :=
          fun e : Js.optstr =>
            [toast (SayFormatted (if favorited then "intl.unableToFavorite"
                                  else "intl.unableToUnfavorite") (messageOf e));
             store (setStatusFavorited currentInstance statusId (negb favorited)
                      currentAccountProtocol true)] in
        [network networkPromise;
         store (setStatusFavorited currentInstance idForStoreModification favorited
                  currentAccountProtocol false)]
        ++ match networkAnswer w with
           | Rejected e => undo e
           | Resolved responseUri =>
               (if isAtproto currentAccountProtocol && favorited && Js.truthy responseUri
                then [store (setPostLikeUri currentInstance (uri (fields statusId))
                               responseUri favorited)]
                else if isAtproto currentAccountProtocol && negb favorited
                then [store (setPostLikeUri currentInstance (uri (fields statusId))
                               None favorited)]
                else [])
               ++ (if negb (isAtproto currentAccountProtocol) then
                     database (dbSetStatusFavorited currentInstance statusId favorited)
                     :: match databaseError w with
                        | Some e => undo e
                        | None => []
                        end
                   else [])
           end
    end.

(** [setReblogged(statusId, reblogged)]: the requests it issues, in order. *)
Definition setReblogged (st : PinaforeStore) (statusId : StatusRef)
    (reblogged : bool) (w : World) : list Event :=
  let currentInstance := currentInstance st in
  let accessToken := accessToken st in
  let currentAccountProtocol := currentAccountProtocol st in
  if negb (online st) then
    [toast (Say (if reblogged then "intl.cannotReblogOffline"
                 else "intl.cannotUnreblogOffline"))]
  else
    let prepared : list Event + (StatusRef * NetworkCall) :=
      if isAtproto currentAccountProtocol then
        let b := fields statusId in
        if negb (Js.truthy (uri b)) || negb (Js.truthy (cid b)) then
          inl [toast (Say "Error: Missing post information for repost action.")]
        else if negb reblogged && negb (Js.truthy (repostUri b)) then
          match getPostByUri st (default EmptyString (uri b)) with
          | Some postInStore =>
              if Js.truthy (my_repost_uri postInStore) then
                let statusId := withRepostUri statusId (my_repost_uri postInStore) in
                if negb (Js.truthy (repostUri (fields statusId))) then
                  inl [toast (Say "Error: Cannot un-repost, repost information missing.")]
                else inr (statusId, deleteRepost (repostUri (fields statusId)))
              else inl [toast (Say "Error: Cannot un-repost, repost information missing.")]
          | None => inl [toast (Say "Error: Cannot un-repost, repost information missing.")]
          end
        else
          inr (statusId,
               if reblogged then repostPost (uri b) (cid b)
               else deleteRepost (repostUri (fields statusId)))
      else
        inr (statusId,
             if reblogged then apReblogStatus currentInstance accessToken statusId
             else apUnreblogStatus currentInstance accessToken statusId)
    in
    match prepared with
    | inl events => events
    | inr (statusId, networkPromise) =>
        let idForStoreModification :=
          if isAtproto currentAccountProtocol
          then IdString (default EmptyString (uri (fields statusId)))
          else statusId in
        let undo :=
          fun e : Js.optstr =>
            [toast (SayFormatted (if reblogged then "intl.failedToReblog"
                                  else "intl.failedToUnreblog") (messageOf e));
             store (setStatusReblogged currentInstance statusId (negb reblogged)
                      currentAccountProtocol true)] in
        [network networkPromise;
         store (setStatusReblogged currentInstance idForStoreModification reblogged
                  currentAccountProtocol false)]
        ++ match networkAnswer w with
           | Rejected e => undo e
           | Resolved responseUri =>
               (if isAtproto currentAccountProtocol && reblogged && Js.truthy responseUri
                then [store (setPostRepostUri currentInstance (uri (fields statusId))
                               responseUri reblogged)]
                else if isAtproto currentAccountProtocol && negb reblogged
                then [store (setPostRepostUri currentInstance (uri (fields statusId))
                               None reblogged)]
                else [])
               ++ (if negb (isAtproto currentAccountProtocol) then
                     database (dbSetStatusReblogged currentInstance statusId reblogged)
                     :: match databaseError w with
                        | Some e => undo e
                        | None => []
                        end
                   else [])
           end
    end.

(** An event that reaches the network, or changes the store or the
    database. *)
Definition isEffect (e : Event) : bool :=
  match e with
  | toast _ => false
  | network _ | store _ | database _ => true
  end.

(** The state a collaborator ends in after a trace, whatever it does with
    each call ([step]); events addressed to others leave it alone. *)
Definition runStore {S : Type} (step : StoreCall -> S -> S)
    (trace : list Event) (s : S) : S :=
  foldl (fun s e => match e with store c => step c s | _ => s end) s trace.

Definition runDatabase {S : Type} (step : DatabaseCall -> S -> S)
    (trace : list Event) (s : S) : S :=
  foldl (fun s e => match e with database c => step c s | _ => s end) s trace.

Definition networkCalls (trace : list Event) : list NetworkCall :=
  omap (fun e => match e with network c => Some c | _ => None end) trace.

(** The targets of the optimistic update and of its undo, in a trace. *)
Definition favoritedTargets (trace : list Event) : list (StatusRef * bool * bool) :=
  omap (fun e => match e with
                 | store (setStatusFavorited _ statusId favorited _ undo) =>
                     Some (statusId, favorited, undo)
                 | _ => None
                 end) trace.

Definition rebloggedTargets (trace : list Event) : list (StatusRef * bool * bool) :=
  omap (fun e => match e with
                 | store (setStatusReblogged _ statusId reblogged _ undo) =>
                     Some (statusId, reblogged, undo)
                 | _ => None
                 end) trace.

End Interaction.

(* ===================================================================== *)
(** * Local deletion ([_actions/deleteStatuses.js]) *)
(* ===================================================================== *)

Module DeleteStatuses.

(** [new Set(ids)] followed by [Array.from]: first occurrences, in order. *)
Fixpoint uniqueFrom (seen : gset string) (ids : list string) : list string :=
  match ids with
  | [] => []
  | i :: ids' =>
      if decide (i ∈ seen) then uniqueFrom seen ids'
      else i :: uniqueFrom ({[i]} ∪ seen) ids'
  end.

Definition unique (ids : list string) : list string := uniqueFrom ∅ ids.

(** [idsToDeleteSet.has(id)] *)
Definition hasId (idsToDelete : list string) (id : string) : bool :=
  bool_decide (id ∈ idsToDelete).

(** One timeline of [filterItemIdsFromTimelines]: the list is rewritten
    only when the filter changes it. *)
Definition filterTimeline (idFilter : string -> bool) (summaries : list Summary)
    : list Summary :=
  let filteredSummaries := List.filter (fun s => idFilter (su_id s)) summaries in
  if isEqual (Some summaries) filteredSummaries then summaries else filteredSummaries.

(** One key of [filterItemIdsFromTimelines]: every timeline of the
    instance that passes [timelineFilter] is filtered. *)
Definition filterKey (instanceName : string) (timelineFilter idFilter : string -> bool)
    (timelineData : gmap (string * string) (list Summary))
    : gmap (string * string) (list Summary) :=
  map_imap (fun k summaries =>
              if String.eqb (fst k) instanceName && timelineFilter (snd k)
              then Some (filterTimeline idFilter summaries)
              else Some summaries) timelineData.

(** [filterItemIdsFromTimelines]: the keys [timelineItemSummaries] and
    [timelineItemSummariesToAdd]. *)
Definition filterItemIdsFromTimelines (st : PinaforeStore) (instanceName : string)
    (timelineFilter idFilter : string -> bool) : PinaforeStore :=
  mkStore (online st) (currentInstance st) (accessToken st) (currentAccountProtocol st)
    (filterKey instanceName timelineFilter idFilter (timelineItemSummaries st))
    (filterKey instanceName timelineFilter idFilter (timelineItemSummariesToAdd st))
    (timelineItemSummariesAreStale st) (timelineNextPageId st) (getPostByUri st).

Definition notNotificationTimeline (timelineName : string) : bool :=
  negb (String.eqb timelineName "notifications").

Definition isNotificationTimeline (timelineName : string) : bool :=
  String.eqb timelineName "notifications".

Definition deleteStatusIdsFromStore (st : PinaforeStore) (instanceName : string)
    (idsToDelete : list string) : PinaforeStore :=
  filterItemIdsFromTimelines st instanceName notNotificationTimeline
    (fun id => negb (hasId idsToDelete id)).

Definition deleteNotificationIdsFromStore (st : PinaforeStore) (instanceName : string)
    (idsToDelete : list string) : PinaforeStore :=
  filterItemIdsFromTimelines st instanceName isNotificationTimeline
    (fun id => negb (hasId idsToDelete id)).

(** The two queries of [_actions/statuses.js] that the deletion awaits;
    that file is not part of the sources at hand, their answers are taken
    as given. *)
Record StatusQueries := mkQueries {
  getIdsThatRebloggedThisStatus : string -> string -> list string;
  getNotificationIdsForStatuses : string -> list string -> list string
}.

(** The requests sent to the database. *)
Inductive DatabaseCall :=
| deleteAtprotoPost (pdsHostname postUri : string)
| dbDeleteStatusesAndNotifications (instanceName : string)
    (statusIdsToDelete notificationIdsToDelete : list string).

Definition deleteStatusesAndNotifications (st : PinaforeStore) (instanceName : string)
    (statusIdsToDelete notificationIdsToDelete : list string)
    : PinaforeStore * list DatabaseCall :=
  let st := deleteStatusIdsFromStore st instanceName statusIdsToDelete in
  let st := deleteNotificationIdsFromStore st instanceName notificationIdsToDelete in
  (st, [dbDeleteStatusesAndNotifications instanceName statusIdsToDelete
          notificationIdsToDelete]).

(** [.filter(Boolean)] on ids. *)
Definition nonEmpty (ids : list string) : list string :=
  List.filter (fun i => negb (String.eqb i EmptyString)) ids.

Definition statusIdsToDelete (q : StatusQueries) (instanceName statusId : string)
    : list string :=
  unique (nonEmpty (statusId :: getIdsThatRebloggedThisStatus q instanceName statusId)).

Definition notificationIdsToDelete (q : StatusQueries) (instanceName statusId : string)
    : list string :=
  unique (getNotificationIdsForStatuses q instanceName
            (statusIdsToDelete q instanceName statusId)).

(** [doDeleteStatus(instanceName, statusId, protocol)]; [pdsHostname] is
    the host name the function derives from the session. *)
Definition doDeleteStatus (q : StatusQueries) (pdsHostname : string)
    (st : PinaforeStore) (instanceName statusId : string) (protocol : option Protocol)
    : PinaforeStore * list DatabaseCall :=
  if bool_decide (protocol = Some Atproto) then
    (deleteStatusIdsFromStore st instanceName [statusId],
     [deleteAtprotoPost pdsHostname statusId])
  else
    deleteStatusesAndNotifications st instanceName
      (statusIdsToDelete q instanceName statusId)
      (notificationIdsToDelete q instanceName statusId).

End DeleteStatuses.

(* ===================================================================== *)
(** * Feed cursors ([_database/atprotoFeeds.js], [_actions/timeline.js]) *)
(* ===================================================================== *)

Module Cursor.

(** A record of the [atproto_feed_cursors-v1] object store, whose key path
    is [feedUri].  A [cursor] that is not a string ([undefined], [null] or
    no such key) is [None]. *)
Record CursorRecord := mkCursorRecord {
  feedUri : string;
  cursor : Js.optstr
}.

(** [cloneForStorage] of [_database/helpers.js] is not part of the sources
    at hand; it is taken as a parameter. *)
Class Storage := { cloneForStorage : CursorRecord -> CursorRecord }.

(** What the cursor path needs of it: the key path and a non-empty cursor
    survive, and a record without a cursor is stored without one. *)
Class StorageLaws (C : Storage) : Prop := {
  clone_feedUri : forall r, feedUri (cloneForStorage r) = feedUri r;
  clone_cursor : forall r, Js.truthy (cursor r) = true ->
                           cursor (cloneForStorage r) = cursor r;
  clone_no_cursor : forall r, cursor r = None -> cursor (cloneForStorage r) = None
}.

(** The cursor object stores, one per database (PDS host name), keyed by
    the key path of the stored record. *)
Abbreviation CursorStores := (gmap (string * string) CursorRecord).



Definition whatsHot : string :=
  "at://did:plc:z72i7hdynmk6r22z27h6tvur/app.bsky.feed.generator/whats-hot".

(** The mapping from a timeline name to [(atprotoAlgorithmOrActor,
    atprotoFeedIdentifier)]. *)
Definition atprotoFeedOf (timelineName : string) : Js.optstr * string :=
  if Js.startsWith timelineName "account/" then
    let accountId :=
      hd EmptyString (Js.split "/" (Js.substringFrom 8 timelineName)) in
    (Some accountId, "actor_feed:" +:+ accountId)
  else if String.eqb timelineName "home" then (None, "home_following")
  else if String.eqb timelineName "federated" then (Some whatsHot, whatsHot)
  else if Js.startsWith timelineName "at://" then (Some timelineName, timelineName)
  else (None, "home_following").










(** A reference [cloneForStorage]: the record as it is. *)
Definition plainStorage : Storage := {| cloneForStorage := fun r => r |}.

End Cursor.

(* ===================================================================== *)
(** * Sample data *)
(* ===================================================================== *)

Module Sample.
Import Normalizer.

Definition alice : ProfileViewBasic :=
  mkProfile "did:plc:alice" "alice.bsky.social" (Some "Alice") None [].


Definition carol : ProfileViewBasic :=
  mkProfile "did:plc:carol" "carol.bsky.social" None None [].

Definition postP : PostView :=
  mkPostView "at://did:plc:alice/app.bsky.feed.post/3k" (Some "bafyP") (Some alice)
    (Some (mkPostRecord (Some "hello") (Some "2024-05-01T10:00:00.000Z") None))
    (Some 1) (Some 2) (Some 3) (Some "2024-05-01T10:00:01.000Z") None [] None.

Definition plainItem : FeedViewPost := mkFeedViewPost (Some postP) None None.



(** A feed item without its [post]. *)
Definition malformedItem : FeedViewPost := mkFeedViewPost None None None.

Definition feedWithMalformedItem : FeedResponse :=
  mkFeedResponse [Some malformedItem; Some plainItem] (Some "c1").

(** A Protocol-B session, online; nothing cached. *)
Definition atprotoStore : PinaforeStore :=
  mkStore true "bsky.social" "jwt" (Some Atproto) ∅ ∅ ∅ ∅ (fun _ => None).


Definition offlineStore : PinaforeStore :=
  mkStore false "mastodon.example" "token" (Some ActivityPub) ∅ ∅ ∅ ∅ (fun _ => None).

(** The bundle of the post, without reference ids. *)
Definition postBundle : Interaction.Bundle :=
  Interaction.mkBundle (Some "at://did:plc:alice/app.bsky.feed.post/3k") (Some "bafyP")
    None None.

Definition networkDown : Interaction.World :=
  Interaction.mkWorld (Interaction.Rejected (Some "NetworkError")) None.

Definition networkUp : Interaction.World :=
  Interaction.mkWorld (Interaction.Resolved None) None.

(** Summaries: [a] and [b] are in the old list, the batch brings a fresher
    copy of [a] and the new [c]. *)
Definition a : Summary := mkSummary "a" 30 "status".
Definition b : Summary := mkSummary "b" 10 "status".
Definition a' : Summary := mkSummary "a" 30 "reblog".
Definition c : Summary := mkSummary "c" 20 "status".

Definition homeStore : PinaforeStore :=
  mkStore true "mastodon.example" "token" (Some ActivityPub)
    {[ ("mastodon.example", "home") := [a; b] ]} ∅ ∅ ∅ (fun _ => None).





End Sample.

(* ===================================================================== *)
(** * Showing the items that wait ([_actions/timeline.js]) *)
(* ===================================================================== *)

Definition getForTimeline_timelineItemSummariesToAdd (st : PinaforeStore)
    (instanceName timelineName : string) : option (list Summary) :=
  timelineItemSummariesToAdd st !! (instanceName, timelineName).

Module ShowMore.
Section ShowMore.
Context `{SortItemSummaries}.

(** One step of [array.sort(comparator)]: the entry goes before the first
    entry it does not compare greater than. *)
Fixpoint insertSorted (comparator : Summary -> Summary -> Z) (x : Summary)
    (l : list Summary) : list Summary :=
  match l with
  | [] => [x]
  | y :: l' =>
      if comparator x y <=? 0 then x :: y :: l'
      else y :: insertSorted comparator x l'
  end.

(** [array.sort(comparator)]: ascending for the comparator and stable
    (entries that compare equal keep their order). *)
Definition sort (comparator : Summary -> Summary -> Z) (l : list Summary)
    : list Summary :=
  foldr (insertSorted comparator) [] l.

(** The keys [shouldShowHeader] and [showHeader] of the patch that ends
    [showMoreItemsForTimeline]; they are returned beside the store. *)
Record HeaderFlags := mkHeaderFlags {
  shouldShowHeader : bool;
  showHeader : bool
}.

(** [itemSummariesToAdd] as [showMoreItemsForTimeline] hands it to the
    merge: sorted by the comparator, then reversed. *)
Definition sortedToAdd (st : PinaforeStore) (instanceName timelineName : string)
    : list Summary :=
  let itemSummariesToAdd :=
    default [] (getForTimeline_timelineItemSummariesToAdd st instanceName timelineName) in
  rev (sort compareTimelineItemSummaries itemSummariesToAdd).

(** [showMoreItemsForTimeline(instanceName, timelineName)] *)
Definition showMoreItemsForTimeline (st : PinaforeStore)
    (instanceName timelineName : string) : PinaforeStore * HeaderFlags :=
  let itemSummariesToAdd := sortedToAdd st instanceName timelineName in
  let st := Timeline.addTimelineItemSummaries st instanceName timelineName
              itemSummariesToAdd false in
  (setForTimeline st instanceName timelineName (PatchTimelineItemSummariesToAdd []),
   mkHeaderFlags false false).

(** [showMoreItemsForThread(instanceName, timelineName)]; [None] is the
    [TypeError] raised when one of the two lists is [undefined]. *)
Definition showMoreItemsForThread (st : PinaforeStore)
    (instanceName timelineName : string) : option PinaforeStore :=
  match getForTimeline_timelineItemSummaries st instanceName timelineName,
        getForTimeline_timelineItemSummariesToAdd st instanceName timelineName with
  | Some timelineItemSummaries, Some itemSummariesToAdd =>
      let timelineItemIds := idsOf timelineItemSummaries in
      let timelineItemSummaries :=
        timelineItemSummaries
        ++ filter (fun itemSummaryToAdd => su_id itemSummaryToAdd ∉ timelineItemIds)
             itemSummariesToAdd in
      let statusId := List.last (Js.split "/" timelineName) EmptyString in
      let sortedTimelineItemSummaries :=
        sortItemSummariesForThread timelineItemSummaries (Some statusId) in
      Some (setForTimeline
              (setForTimeline st instanceName timelineName
                 (PatchTimelineItemSummariesToAdd []))
              instanceName timelineName
              (PatchTimelineItemSummaries sortedTimelineItemSummaries))
  | _, _ => None
  end.

End ShowMore.
End ShowMore.

(** Ascending for the comparator: every entry is at most as recent as
    each entry after it. *)
Definition ascending (l : list Summary) : Prop :=
  StronglySorted (fun a b => su_sortKey a <= su_sortKey b) l.


(* ===================================================================== *)
(** * The feed requests of [getTimeline] ([_api_atproto/timelines.js]) *)
(* ===================================================================== *)

Module FeedRequest.

(** [s.includes(sub)] *)
Fixpoint includes (s sub : string) : bool :=
  String.prefix sub s
  || match s with
     | EmptyString => false
     | String _ s' => includes s' sub
     end.

(** The agent method that [getTimeline] calls, with the feed, actor or
    algorithm it passes. *)
Inductive Endpoint :=
| getFeed (feed : string)
| getAuthorFeed (actor : string)
| agentGetTimeline (algorithm : Js.optstr).

(** The choice of the agent method from [algorithm]: [params.feed] is set
    only for a truthy [algorithm]. *)
Definition endpointOf (algorithm : Js.optstr) : Endpoint :=
  match (if Js.truthy algorithm then algorithm else None) with
  | Some feed =>
      let isActorFeedRequest := Js.startsWith feed "did:" || includes feed "." in
      let isCustomFeedUri := Js.startsWith feed "at://" in
      if isCustomFeedUri then getFeed feed
      else if isActorFeedRequest then getAuthorFeed feed
      else agentGetTimeline (Some feed)
  | None => agentGetTimeline None
  end.

End FeedRequest.

(* ===================================================================== *)
(** * Reading the traces of like and repost *)
(* ===================================================================== *)

(** A request of the Protocol-B API ([_api_atproto/posts.js]); the others
    are requests of the Protocol-A API. *)
Definition isAtprotoCall (c : Interaction.NetworkCall) : bool :=
  match c with
  | Interaction.likePost _ _ | Interaction.deleteLike _
  | Interaction.repostPost _ _ | Interaction.deleteRepost _ => true
  | _ => false
  end.

(** The status that a request of the Protocol-A API names. *)
Definition activityPubTarget (c : Interaction.NetworkCall)
    : option (string * string * Interaction.StatusRef) :=
  match c with
  | Interaction.apFavoriteStatus i t s | Interaction.apUnfavoriteStatus i t s
  | Interaction.apReblogStatus i t s | Interaction.apUnreblogStatus i t s => Some (i, t, s)
  | _ => None
  end.

(** A store call that records the viewer's like or repost record. *)
Definition isReferenceWrite (c : Interaction.StoreCall) : bool :=
  match c with
  | Interaction.setPostLikeUri _ _ _ _ | Interaction.setPostRepostUri _ _ _ _ => true
  | _ => false
  end.

(* ===================================================================== *)
(** * Deleting a status ([_actions/delete.js]) *)
(* ===================================================================== *)

Module Delete.

Inductive NetworkCall :=
| deletePost (postUri : string)                        (* [atprotoPostsApi.deletePost] *)
| apDeleteStatus (instanceName accessToken : string) (statusId : Interaction.StatusRef).

Inductive Event :=
| toast (t : Interaction.Toast)
| network (c : NetworkCall)
| deleteStatusLocally (instanceName : string) (statusId : Interaction.StatusRef)
    (protocol : option Protocol).

(** How the awaited request settles: with the response (the deleted status
    on Protocol A, nothing on Protocol B), or with an error, of which only
    the message is read. *)
Inductive Settled (R : Type) :=
| Resolved (deletedResponse : R)
| Rejected (message : Js.optstr).
Arguments Resolved {R} deletedResponse.
Arguments Rejected {R} message.

(** What the promise of [doDeleteStatus] settles with. *)
Inductive Result (R : Type) :=
| Success (id : Interaction.StatusRef)                 (* [{ success: true, id }] *)
| Deleted (deletedResponse : R)
| Thrown (message : Js.optstr).
Arguments Success {R} id.
Arguments Deleted {R} deletedResponse.
Arguments Thrown {R} message.

(** [typeof statusId !== 'string' || !statusId.startsWith('at://')] *)
Definition invalidPostUri (statusId : Interaction.StatusRef) : bool :=
  match statusId with
  | Interaction.IdString s => negb (Js.startsWith s "at://")
  | Interaction.IdBundle _ => true
  end.

Definition unableToDelete (message : Js.optstr) : Event :=
  toast (Interaction.SayFormatted "intl.unableToDelete" (Interaction.messageOf message)).

(** [doDeleteStatus(statusId)]: what it asks of its collaborators, in
    order, and how it settles. *)
Definition doDeleteStatus {R : Type} (st : PinaforeStore)
    (statusId : Interaction.StatusRef) (answer : Settled R) : list Event * Result R :=
  let currentInstance := currentInstance st in
  let accessToken := accessToken st in
  let currentAccountProtocol := currentAccountProtocol st in
  let idForLocalDelete := statusId in
  let isAtproto := bool_decide (currentAccountProtocol = Some Atproto) in
  (* the branch that builds [networkPromise]; [inl] is the [throw] *)
  let prepared : (list Event * Js.optstr) + NetworkCall :=
    if isAtproto then
      match statusId with
      | Interaction.IdString s =>
          if Js.startsWith s "at://" then inr (deletePost s)
          else inl ([toast (Interaction.Say "Error: Invalid post information for delete.")],
                    Some "Invalid post URI for ATProto delete.")
      | Interaction.IdBundle _ =>
          inl ([toast (Interaction.Say "Error: Invalid post information for delete.")],
               Some "Invalid post URI for ATProto delete.")
      end
    else inr (apDeleteStatus currentInstance accessToken statusId)
  in
  match prepared with
  | inl (events, e) => (events ++ [unableToDelete e], Thrown e)
  | inr networkPromise =>
      match answer with
      | Rejected e => ([network networkPromise; unableToDelete e], Thrown e)
      | Resolved deletedResponse =>
          ([network networkPromise;
            deleteStatusLocally currentInstance idForLocalDelete currentAccountProtocol;
            toast (Interaction.Say "intl.statusDeleted")],
           if isAtproto then Success idForLocalDelete else Deleted deletedResponse)
      end
  end.

(** [deleteStatus(instanceName, statusId, protocol)] of
    [_actions/deleteStatuses.js], the [deleteStatusLocally] of this file,
    once its idle task runs, for an id that is a string. *)
Definition runDeleteStatusLocally (q : DeleteStatuses.StatusQueries) (pdsHostname : string)
    (st : PinaforeStore) (e : Event)
    : option (PinaforeStore * list DeleteStatuses.DatabaseCall) :=
  match e with
  | deleteStatusLocally instanceName (Interaction.IdString statusId) protocol =>
      Some (DeleteStatuses.doDeleteStatus q pdsHostname st instanceName statusId protocol)
  | _ => None
  end.

Definition isLocalDeletion (e : Event) : bool :=
  match e with deleteStatusLocally _ _ _ => true | _ => false end.

End Delete.

(* ===================================================================== *)
(** * Like, repost and bookmark state of cached statuses
      ([_store/mixins/atprotoMixins.js]) *)
(* ===================================================================== *)

Module AtprotoMixins.

(** [status.viewer]: the viewer state of a cached status. *)
Record Viewer := mkViewer {
  like : Js.optstr;
  repost : Js.optstr
}.

(** A cached item of a timeline array, with the properties that the
    mixins read or write; a count that is not a number is [None], counts
    that are numbers are integers. *)
Record TimelineItem := mkItem {
  id : string;
  protocol : Js.optstr;
  myLikeUri : Js.optstr;
  favorited : option bool;
  likeCount : option Z;
  myRepostUri : Js.optstr;
  reblogged : option bool;
  repostCount : option Z;
  viewer : option Viewer;
  client_isBookmarked : option bool
}.

(** The arrays under the state keys that start with [timelineData_], by
    state key, instance name and timeline name; an entry of an array may
    be [null]. *)
Abbreviation TimelineData := (gmap (string * string * string) (list (option TimelineItem))).

(** [item && item.id === postUri && item.protocol === 'atproto'] *)
Definition isTarget (postUri : string) (item : option TimelineItem) : bool :=
  match item with
  | Some item =>
      String.eqb (id item) postUri && bool_decide (protocol item = Some "atproto")
  | None => false
  end.

(** [_updateAtprotoStatusInAllTimelines(storeInstance, postUri, updateFn)]:
    the arrays afterwards, and whether [storeInstance.set] was called. *)
Definition _updateAtprotoStatusInAllTimelines (data : TimelineData)
    (postUri : string) (updateFn : TimelineItem -> TimelineItem)
    : TimelineData * bool :=
  let newItems := fun items : list (option TimelineItem) =>
    map (fun item => if isTarget postUri item then updateFn <$> item else item) items in
  let changed :=
    bool_decide (map_Exists (fun _ items => existsb (isTarget postUri) items = true) data) in
  (newItems <$> data, changed).

(** The update that [setPostLikeUri] applies to a cached status. *)
Definition likeUpdate (likeRecordUri : Js.optstr) (isLiked : bool)
    (status : TimelineItem) : TimelineItem :=
  let likeCount := default 0 (likeCount status) in
  let oldIsLiked := Js.truthy (myLikeUri status) in
  let likeCount :=
    if isLiked && negb oldIsLiked then likeCount + 1
    else if negb isLiked && oldIsLiked then Z.max 0 (likeCount - 1)
    else likeCount in
  {| id := id status;
     protocol := protocol status;
     myLikeUri := likeRecordUri;
     favorited := Some isLiked;
     likeCount := Some likeCount;
     myRepostUri := myRepostUri status;
     reblogged := reblogged status;
     repostCount := repostCount status;
     viewer := Some {| like := likeRecordUri; repost := viewer status ≫= repost |};
     client_isBookmarked := client_isBookmarked status |}.

(** The update that [setPostRepostUri] applies to a cached status. *)
Definition repostUpdate (repostRecordUri : Js.optstr) (isReposted : bool)
    (status : TimelineItem) : TimelineItem :=
  let repostCount := default 0 (repostCount status) in
  let oldIsReposted := Js.truthy (myRepostUri status) in
  let repostCount :=
    if isReposted && negb oldIsReposted then repostCount + 1
    else if negb isReposted && oldIsReposted then Z.max 0 (repostCount - 1)
    else repostCount in
  {| id := id status;
     protocol := protocol status;
     myLikeUri := myLikeUri status;
     favorited := favorited status;
     likeCount := likeCount status;
     myRepostUri := repostRecordUri;
     reblogged := Some isReposted;
     repostCount := Some repostCount;
     viewer := Some {| like := viewer status ≫= like; repost := repostRecordUri |};
     client_isBookmarked := client_isBookmarked status |}.

(** The store part of [setPostLikeUri] and of [setPostRepostUri] (the
    write to the posts database follows it). *)
Definition setPostLikeUri (data : TimelineData) (postUri : string)
    (likeRecordUri : Js.optstr) (isLiked : bool) : TimelineData * bool :=
  _updateAtprotoStatusInAllTimelines data postUri (likeUpdate likeRecordUri isLiked).

Definition setPostRepostUri (data : TimelineData) (postUri : string)
    (repostRecordUri : Js.optstr) (isReposted : bool) : TimelineData * bool :=
  _updateAtprotoStatusInAllTimelines data postUri (repostUpdate repostRecordUri isReposted).

End AtprotoMixins.

(* ===================================================================== *)
(** * The posts store and the feed timelines
      ([_database/atprotoPosts.js], [_database/atprotoFeeds.js]) *)
(* ===================================================================== *)

Module AtprotoPosts.

(** The object that [setAtprotoPost] hands to [cloneForStorage]: the post
    with four of its properties set anew.  An [author] that is not there
    becomes the empty object, [None]. *)
Record Storable := mkStorable {
  postData : Normalizer.Status;
  author : option Normalizer.Account;
  createdAt : string;
  replyRootUri : Js.optstr;
  replyParentUri : Js.optstr
}.

(** [cloneForStorage] of [_database/helpers.js], at the posts store; it
    is taken as a parameter. *)
Class Storage := { cloneForStorage : Storable -> Storable }.

(** What the posts store needs of it: the key path [uri] survives. *)
Class StorageLaws (C : Storage) : Prop := {
  clone_uri : forall r,
    Normalizer.statusUri (postData (cloneForStorage r)) = Normalizer.statusUri (postData r)
}.

(** The object store [atproto_posts-v1], one per database (PDS host
    name), keyed by the key path [uri] of the stored post. *)
Abbreviation Posts := (gmap (string * string) Storable).

(** The object store [atproto_timelines-v1], one per database: the uri of
    a post under an out-of-line key. *)
Abbreviation Timelines := (gmap (string * string) string).



Section WithStorage.
Context `{Storage}.




End WithStorage.


(** The separator of the parts of a timeline key. *)
Definition nul : string := String (Ascii.ascii_of_nat 0) EmptyString.

(** [s.endsWith(suffix)] *)
Fixpoint endsWith (s suffix : string) : bool :=
  String.eqb s suffix
  || match s with
     | EmptyString => false
     | String _ s' => endsWith s' suffix
     end.

(** The test that marks a timeline entry for deletion. *)
Definition refersTo (postUri : string) (key value : string) : bool :=
  String.eqb value postUri || endsWith key (nul +:+ postUri).

(** [deleteAtprotoPost(pdsHostname, postUri)]: the post goes from the
    posts store, and with it every entry of the timelines store that refers
    to it; [None] is the rejected promise. *)
Definition deleteAtprotoPost (db : Posts) (timelines : Timelines)
    (pdsHostname postUri : string) : option (Posts * Timelines) :=
  if String.eqb postUri EmptyString then None
  else
    Some (delete (pdsHostname, postUri) db,
          filter (fun entry =>
                    ~ (fst (fst entry) = pdsHostname
                       /\ refersTo postUri (snd (fst entry)) (snd entry) = true))
            timelines).

End AtprotoPosts.


Module AtprotoFeeds.





End AtprotoFeeds.

(* ===================================================================== *)
(** * Client-side bookmarks of Protocol B ([_database/atprotoBookmarks.js]
      and the bookmark mixins) *)
(* ===================================================================== *)

Module AtprotoBookmarks.

(** A record of the object store of bookmarks, whose key path is
    [postUri]. *)
Record BookmarkRecord := mkBookmark {
  postUri : string;
  bookmarkedAt : string
}.

(** [cloneForStorage] of [_database/helpers.js], at the bookmarks store;
    it is taken as a parameter. *)
Class Storage := { cloneForStorage : BookmarkRecord -> BookmarkRecord }.

(** What the bookmarks store needs of it: the key path survives. *)
Class StorageLaws (C : Storage) : Prop := {
  clone_postUri : forall r, postUri (cloneForStorage r) = postUri r
}.

(** A [cloneForStorage] that copies the record as it is. *)
Definition plainStorage : Storage := {| cloneForStorage := fun r => r |}.

(** The object store of bookmarks, one per database (PDS host name). *)
Abbreviation BookmarkDb := (gmap (string * string) BookmarkRecord).

(** [database.addAtprotoBookmark(pdsHostname, postUri)]: the store
    afterwards and the record the promise resolves with, which is the new
    record also when the post was bookmarked already; [None] is the
    rejected promise.  [now] is [new Date().toISOString()]. *)
Definition addAtprotoBookmark `{Storage} (db : BookmarkDb)
    (pdsHostname postUri now : string) : option (BookmarkDb * BookmarkRecord) :=
  if String.eqb postUri EmptyString then None
  else
    let bookmarkRecord := {| postUri := postUri; bookmarkedAt := now |} in
    match db !! (pdsHostname, postUri) with
    | Some existing => Some (db, bookmarkRecord)
    | None =>
        let stored := cloneForStorage bookmarkRecord in
        Some (<[(pdsHostname, AtprotoBookmarks.postUri stored) := stored]> db, bookmarkRecord)
    end.

(** [database.removeAtprotoBookmark(pdsHostname, postUri)] *)
Definition removeAtprotoBookmark (db : BookmarkDb) (pdsHostname postUri : string)
    : option BookmarkDb :=
  if String.eqb postUri EmptyString then None
  else Some (delete (pdsHostname, postUri) db).


End AtprotoBookmarks.

Module BookmarkMixins.
Import AtprotoBookmarks.

(** The part of the store that the bookmark mixins read and write. *)
Record State := mkState {
  currentAtprotoSessionDid : Js.optstr;
  isAtprotoSessionActive : bool;
  atprotoBookmarkedPostUris : option (gset string);
  atprotoBookmarksList : option (list BookmarkRecord);
  timelineData : AtprotoMixins.TimelineData
}.

(** [status => ({ ...status, client_isBookmarked: flag })] *)
Definition bookmarkUpdate (flag : bool) (status : AtprotoMixins.TimelineItem)
    : AtprotoMixins.TimelineItem :=
  {| AtprotoMixins.id := AtprotoMixins.id status;
     AtprotoMixins.protocol := AtprotoMixins.protocol status;
     AtprotoMixins.myLikeUri := AtprotoMixins.myLikeUri status;
     AtprotoMixins.favorited := AtprotoMixins.favorited status;
     AtprotoMixins.likeCount := AtprotoMixins.likeCount status;
     AtprotoMixins.myRepostUri := AtprotoMixins.myRepostUri status;
     AtprotoMixins.reblogged := AtprotoMixins.reblogged status;
     AtprotoMixins.repostCount := AtprotoMixins.repostCount status;
     AtprotoMixins.viewer := AtprotoMixins.viewer status;
     AtprotoMixins.client_isBookmarked := Some flag |}.

Section Mixins.
Context `{Storage}.
(** [new Date(s).getTime()] *)
Variable getTime : string -> Z.

(** One step of [array.sort(comparator)]: the record goes before the
    first one it does not compare greater than. *)
Fixpoint insertSorted (comparator : BookmarkRecord -> BookmarkRecord -> Z)
    (x : BookmarkRecord) (l : list BookmarkRecord) : list BookmarkRecord :=
  match l with
  | [] => [x]
  | y :: l' =>
      if comparator x y <=? 0 then x :: y :: l'
      else y :: insertSorted comparator x l'
  end.

(** [array.sort(comparator)] *)
Definition sort (comparator : BookmarkRecord -> BookmarkRecord -> Z)
    (l : list BookmarkRecord) : list BookmarkRecord :=
  foldr (insertSorted comparator) [] l.

(** [(a, b) => new Date(b.bookmarkedAt).getTime() - new Date(a.bookmarkedAt).getTime()] *)
Definition newestFirst (a b : BookmarkRecord) : Z :=
  getTime (bookmarkedAt b) - getTime (bookmarkedAt a).

(** The guard that opens both mixins. *)
Definition guarded (st : State) (postUri : string) : bool :=
  negb (Js.truthy (currentAtprotoSessionDid st))
  || negb (isAtprotoSessionActive st)
  || String.eqb postUri EmptyString.

(** [store.addAtprotoBookmark(postUri)]: the store, the database and the
    messages shown.  [dbError] is the error of a database request that
    fails. *)
Definition addAtprotoBookmark (st : State) (db : BookmarkDb)
    (pdsHostname postUri now : string) (dbError : option string)
    : State * BookmarkDb * list string :=
  if guarded st postUri then (st, db, [])
  else
    match dbError, AtprotoBookmarks.addAtprotoBookmark db pdsHostname postUri now with
    | Some message, _ => (st, db, ["Failed to add bookmark: " +:+ message])
    | None, None =>
        (st, db, ["Failed to add bookmark: Post URI is required to add a bookmark."])
    | None, Some (db, newBookmarkRecord) =>
        let newUris := default ∅ (atprotoBookmarkedPostUris st) ∪ {[postUri]} in
        let newBookmarksList := default [] (atprotoBookmarksList st) in
        let newBookmarksList :=
          if existsb (fun bm => String.eqb (AtprotoBookmarks.postUri bm) postUri) newBookmarksList
          then newBookmarksList
          else sort newestFirst (newBookmarkRecord :: newBookmarksList) in
        ({| currentAtprotoSessionDid := currentAtprotoSessionDid st;
            isAtprotoSessionActive := isAtprotoSessionActive st;
            atprotoBookmarkedPostUris := Some newUris;
            atprotoBookmarksList := Some newBookmarksList;
            timelineData :=
              fst (AtprotoMixins._updateAtprotoStatusInAllTimelines (timelineData st)
                     postUri (bookmarkUpdate true)) |},
         db, ["Bookmarked!"])
    end.

(** [store.removeAtprotoBookmark(postUri)] *)
Definition removeAtprotoBookmark (st : State) (db : BookmarkDb)
    (pdsHostname postUri : string) (dbError : option string)
    : State * BookmarkDb * list string :=
  if guarded st postUri then (st, db, [])
  else
    match dbError, AtprotoBookmarks.removeAtprotoBookmark db pdsHostname postUri with
    | Some message, _ => (st, db, ["Failed to remove bookmark: " +:+ message])
    | None, None =>
        (st, db, ["Failed to remove bookmark: Post URI is required to remove a bookmark."])
    | None, Some db =>
        let newUris := default ∅ (atprotoBookmarkedPostUris st) ∖ {[postUri]} in
        let newList :=
          List.filter (fun bm => negb (String.eqb (AtprotoBookmarks.postUri bm) postUri))
            (default [] (atprotoBookmarksList st)) in
        ({| currentAtprotoSessionDid := currentAtprotoSessionDid st;
            isAtprotoSessionActive := isAtprotoSessionActive st;
            atprotoBookmarkedPostUris := Some newUris;
            atprotoBookmarksList := Some newList;
            timelineData :=
              fst (AtprotoMixins._updateAtprotoStatusInAllTimelines (timelineData st)
                     postUri (bookmarkUpdate false)) |},
         db, ["Bookmark removed."])
    end.

End Mixins.



End BookmarkMixins.

(* ===================================================================== *)
(** * Notifications of Protocol B ([_api_atproto/notifications.js]) *)
(* ===================================================================== *)

Module AtprotoNotifications.










End AtprotoNotifications.
(* ===================================================================== *)
(** * More sample data *)
(* ===================================================================== *)

Module MoreSamples.

(** The home timeline shows [a] and [b]; a fresher copy of [a] and the new
    [c] wait to be shown. *)
Definition waitingStore : PinaforeStore :=
  mkStore true "mastodon.example" "token" (Some ActivityPub)
    {[ ("mastodon.example", "home") := [Sample.a; Sample.b] ]}
    {[ ("mastodon.example", "home") := [Sample.c; Sample.a'] ]}
    ∅ ∅ (fun _ => None).

(** The same lists on the thread of [a]. *)
Definition waitingThread : PinaforeStore :=
  mkStore true "mastodon.example" "token" (Some ActivityPub)
    {[ ("mastodon.example", "status/a") := [Sample.a; Sample.b] ]}
    {[ ("mastodon.example", "status/a") := [Sample.c; Sample.a'] ]}
    ∅ ∅ (fun _ => None).




(** The post of Alice as a cached item, liked twice by others. *)
Definition cachedP : AtprotoMixins.TimelineItem :=
  AtprotoMixins.mkItem "at://did:plc:alice/app.bsky.feed.post/3k" (Some "atproto")
    None (Some false) (Some 2) None (Some false) (Some 0) None None.

(** The home timeline of the cache: a hole and the post. *)
Definition cachedTimelines : AtprotoMixins.TimelineData :=
  {[ ("timelineData_timelineItemSummaries", "bsky.social", "home") := [None; Some cachedP] ]}.


(** A Protocol-B session with no bookmark loaded and the cached home
    timeline. *)
Definition bookmarkSession : BookmarkMixins.State :=
  BookmarkMixins.mkState (Some "did:plc:me") true None None cachedTimelines.

(** The time stamps of two moments of the samples. *)
Definition sampleTime (s : string) : Z :=
  if String.eqb s "2024-05-04T00:00:00.000Z" then 1714780800000
  else if String.eqb s "2024-05-05T00:00:00.000Z" then 1714867200000
  else 0.

End MoreSamples.

(* ===================================================================== *)
(** * Properties of the helpers *)
(* ===================================================================== *)

Section UniqById.

Lemma idsOf_nil : idsOf [] = ∅.
Proof. reflexivity. Qed.

Lemma idsOf_cons x l : idsOf (x :: l) = {[su_id x]} ∪ idsOf l.
Proof. reflexivity. Qed.

Lemma idsOf_app l1 l2 : idsOf (l1 ++ l2) = idsOf l1 ∪ idsOf l2.
Proof. unfold idsOf. rewrite fmap_app, list_to_set_app_L. reflexivity. Qed.

Lemma elem_of_idsOf i l : i ∈ idsOf l <-> exists x, x ∈ l /\ su_id x = i.
Proof.
  unfold idsOf. rewrite elem_of_list_to_set, list_elem_of_fmap.
  split; intros (x & ? & ?); exists x; split; congruence.
Qed.


Lemma idsOf_perm l1 l2 : l1 ≡ₚ l2 -> idsOf l1 = idsOf l2.
Proof.
  intros Hp. apply set_eq. intros i. rewrite !elem_of_idsOf.
  split; intros (x & Hx & ?); exists x; split; auto; [by rewrite <- Hp | by rewrite Hp].
Qed.

Lemma uniqByIdFrom_elem seen l x :
  x ∈ uniqByIdFrom seen l -> x ∈ l /\ su_id x ∉ seen.
Proof.
  revert seen. induction l as [|y l IH]; intros seen; simpl.
  - intros Hx. by apply elem_of_nil in Hx.
  - destruct (decide (su_id y ∈ seen)) as [Hin|Hout].
    + intros Hx. apply IH in Hx as [? ?]. split; [by right | done].
    + rewrite elem_of_cons. intros [-> | Hx].
      * split; [by left | done].
      * apply IH in Hx as [? Hns]. split; [by right | set_solver].
Qed.

Lemma idsOf_uniqByIdFrom seen l :
  idsOf (uniqByIdFrom seen l) = idsOf l ∖ seen.
Proof.
  revert seen. induction l as [|y l IH]; intros seen; simpl.
  - rewrite idsOf_nil. set_solver.
  - destruct (decide (su_id y ∈ seen)).
    + rewrite IH, idsOf_cons. set_solver.
    + rewrite !idsOf_cons, IH. apply set_eq. intros i.
      destruct (decide (i = su_id y)); set_solver.
Qed.

Lemma uniqByIdFrom_NoDup seen l : NoDup (su_id <$> uniqByIdFrom seen l).
Proof.
  revert seen. induction l as [|y l IH]; intros seen; simpl.
  - constructor.
  - destruct (decide (su_id y ∈ seen)); [apply IH|].
    rewrite fmap_cons. constructor; [|apply IH].
    intros Hin. apply list_elem_of_fmap in Hin as (x & Heq & Hx).
    apply uniqByIdFrom_elem in Hx as [_ Hns]. set_solver.
Qed.



Lemma uniqByIdFrom_fresh seen l :
  NoDup (su_id <$> l) -> idsOf l ## seen -> uniqByIdFrom seen l = l.
Proof.
  revert seen. induction l as [|y l IH]; intros seen Hnd Hd; simpl; [done|].
  rewrite fmap_cons in Hnd. apply NoDup_cons in Hnd as [Hy Hnd].
  rewrite idsOf_cons in Hd.
  destruct (decide (su_id y ∈ seen)); [set_solver|].
  f_equal. apply IH; [done|].
  assert (su_id y ∉ idsOf l).
  { intros Hi. apply Hy. unfold idsOf in Hi. by apply elem_of_list_to_set in Hi. }
  set_solver.
Qed.


Lemma uniqById_NoDup l : NoDup (su_id <$> uniqById l).
Proof. apply uniqByIdFrom_NoDup. Qed.

Lemma idsOf_uniqById l : idsOf (uniqById l) = idsOf l.
Proof. unfold uniqById. rewrite idsOf_uniqByIdFrom. set_solver. Qed.

Lemma uniqById_fixed l : NoDup (su_id <$> l) -> uniqById l = l.
Proof. intros. apply uniqByIdFrom_fresh; [done | set_solver]. Qed.

Lemma NoDup_ids_perm (l1 l2 : list Summary) :
  l1 ≡ₚ l2 -> NoDup (su_id <$> l1) -> NoDup (su_id <$> l2).
Proof. intros Hp. by rewrite Hp. Qed.

End UniqById.

Section MergeArrays.
Variable comparator : Summary -> Summary -> Z.

Lemma mergeArrays_nil_l r : mergeArrays comparator [] r = r.
Proof. by destruct r. Qed.

Lemma mergeArrays_nil_r l : mergeArrays comparator l [] = l.
Proof. by destruct l. Qed.

Lemma mergeArrays_cons o l n r :
  mergeArrays comparator (o :: l) (n :: r)
  = if 0 <=? comparator n o
    then n :: mergeArrays comparator (o :: l) r
    else o :: mergeArrays comparator l (n :: r).
Proof. reflexivity. Qed.

(** Structural induction along the run of the merge. *)
Lemma mergeArrays_ind (P : list Summary -> list Summary -> list Summary -> Prop) :
  (forall r, P [] r r) ->
  (forall o l, P (o :: l) [] (o :: l)) ->
  (forall o l n r, 0 <= comparator n o ->
     P (o :: l) r (mergeArrays comparator (o :: l) r) ->
     P (o :: l) (n :: r) (n :: mergeArrays comparator (o :: l) r)) ->
  (forall o l n r, comparator n o < 0 ->
     P l (n :: r) (mergeArrays comparator l (n :: r)) ->
     P (o :: l) (n :: r) (o :: mergeArrays comparator l (n :: r))) ->
  forall l r, P l r (mergeArrays comparator l r).
Proof.
  intros Hnil Hnil' Hnew Hold l.
  induction l as [|o l IHl]; intros r.
  - rewrite mergeArrays_nil_l. apply Hnil.
  - induction r as [|n r IHr].
    + apply Hnil'.
    + rewrite mergeArrays_cons. destruct (Z.leb_spec 0 (comparator n o)).
      * by apply Hnew.
      * apply Hold; [done | apply IHl].
Qed.

Lemma mergeArrays_perm l r : mergeArrays comparator l r ≡ₚ l ++ r.
Proof.
  apply (mergeArrays_ind (fun l r m => m ≡ₚ l ++ r)).
  - done.
  - intros. by rewrite app_nil_r.
  - intros o l' n r' _ IH. rewrite IH. by rewrite Permutation_middle.
  - intros o l' n r' _ IH. by rewrite IH.
Qed.

Lemma idsOf_mergeArrays l r :
  idsOf (mergeArrays comparator l r) = idsOf l ∪ idsOf r.
Proof. rewrite (idsOf_perm _ _ (mergeArrays_perm l r)). apply idsOf_app. Qed.

End MergeArrays.

Section Ordering.

Lemma orderedByComparator_cons x l :
  orderedByComparator (x :: l)
  <-> orderedByComparator l /\ forall y, y ∈ l -> su_sortKey y <= su_sortKey x.
Proof.
  unfold orderedByComparator, compareTimelineItemSummaries. split.
  - intros Hs. apply StronglySorted_inv in Hs as [Hs Hall].
    split; [done|]. intros y Hy. rewrite Forall_forall in Hall.
    specialize (Hall y Hy). lia.
  - intros [Hs Hall]. constructor; [done|].
    apply Forall_forall. intros y Hy. specialize (Hall y Hy). lia.
Qed.

Lemma uniqByIdFrom_ordered seen l :
  orderedByComparator l -> orderedByComparator (uniqByIdFrom seen l).
Proof.
  revert seen. induction l as [|y l IH]; intros seen Hs; simpl; [done|].
  apply orderedByComparator_cons in Hs as [Hs Hall].
  destruct (decide (su_id y ∈ seen)); [by apply IH|].
  apply orderedByComparator_cons. split; [by apply IH|].
  intros z Hz. apply uniqByIdFrom_elem in Hz as [Hz _]. by apply Hall.
Qed.

Lemma mergeArrays_ordered l r :
  orderedByComparator l -> orderedByComparator r ->
  orderedByComparator (mergeArrays compareTimelineItemSummaries l r).
Proof.
  apply (mergeArrays_ind compareTimelineItemSummaries
           (fun l r m => orderedByComparator l -> orderedByComparator r ->
                         orderedByComparator m)).
  - done.
  - done.
  - intros o l' n r' Hcmp IH Hl Hr.
    pose proof Hl as Hl'. apply orderedByComparator_cons in Hl' as [_ Hol].
    apply orderedByComparator_cons in Hr as [Hr Hnr].
    apply orderedByComparator_cons. split; [by apply IH|].
    intros y Hy. rewrite mergeArrays_perm in Hy.
    unfold compareTimelineItemSummaries in Hcmp.
    apply elem_of_app in Hy as [Hy | Hy]; [|by apply Hnr].
    apply elem_of_cons in Hy as [-> | Hy]; [lia|].
    specialize (Hol y Hy). lia.
  - intros o l' n r' Hcmp IH Hl Hr.
    pose proof Hr as Hr'. apply orderedByComparator_cons in Hr' as [_ Hnr].
    apply orderedByComparator_cons in Hl as [Hl Hol].
    apply orderedByComparator_cons. split; [by apply IH|].
    intros y Hy. rewrite mergeArrays_perm in Hy.
    unfold compareTimelineItemSummaries in Hcmp.
    apply elem_of_app in Hy as [Hy | Hy]; [by apply Hol|].
    apply elem_of_cons in Hy as [-> | Hy]; [lia|].
    specialize (Hnr y Hy). lia.
Qed.

(** After the merge and the de-duplication, an id that occurs in the new
    array is represented by an entry of the new array. *)
Lemma uniqById_mergeArrays_new_wins l r :
  orderedByComparator l -> orderedByComparator r -> sortKeysStable (l ++ r) ->
  forall seen x,
    x ∈ uniqByIdFrom seen (mergeArrays compareTimelineItemSummaries l r) ->
    su_id x ∈ idsOf r -> x ∈ r.
Proof.
  apply (mergeArrays_ind compareTimelineItemSummaries
           (fun l r m => orderedByComparator l -> orderedByComparator r ->
                         sortKeysStable (l ++ r) ->
                         forall seen x, x ∈ uniqByIdFrom seen m ->
                                        su_id x ∈ idsOf r -> x ∈ r)).
  - intros r' _ _ _ seen x Hx _. by apply uniqByIdFrom_elem in Hx as [? _].
  - intros o l' _ _ _ seen x _ Hid. rewrite idsOf_nil in Hid. set_solver.
  - intros o l' n r' Hcmp IH Hl Hr Hst seen x Hx Hid.
    apply orderedByComparator_cons in Hr as [Hr _].
    assert (Hst' : sortKeysStable ((o :: l') ++ r')).
    { intros a b Ha Hb. apply Hst.
      - rewrite elem_of_app in *. destruct Ha; [by left | right; by right].
      - rewrite elem_of_app in *. destruct Hb; [by left | right; by right]. }
    rewrite idsOf_cons in Hid. simpl in Hx.
    destruct (decide (su_id n ∈ seen)) as [Hin | Hout].
    + pose proof (uniqByIdFrom_elem _ _ _ Hx) as [_ Hns].
      right. apply (IH Hl Hr Hst' seen x Hx).
      apply elem_of_union in Hid as [Hid | Hid]; [|done].
      apply elem_of_singleton in Hid. congruence.
    + apply elem_of_cons in Hx as [-> | Hx]; [by left|].
      pose proof (uniqByIdFrom_elem _ _ _ Hx) as [_ Hns].
      right. apply (IH Hl Hr Hst' _ x Hx).
      apply elem_of_union in Hid as [Hid | Hid]; [|done].
      apply elem_of_singleton in Hid. rewrite Hid in Hns. set_solver.
  - intros o l' n r' Hcmp IH Hl Hr Hst seen x Hx Hid.
    apply orderedByComparator_cons in Hl as [Hl _].
    assert (Hst' : sortKeysStable (l' ++ n :: r')).
    { intros a b Ha Hb. apply Hst.
      - rewrite elem_of_app in Ha. rewrite elem_of_app.
        destruct Ha; [left; by right | by right].
      - rewrite elem_of_app in Hb. rewrite elem_of_app.
        destruct Hb; [left; by right | by right]. }
    simpl in Hx.
    assert (Ho : su_id o ∉ idsOf (n :: r')).
    { intros Hi. apply elem_of_idsOf in Hi as (b & Hb & Hbo).
      assert (Hk : su_sortKey b = su_sortKey o).
      { apply Hst; [| |done].
        - apply elem_of_app. by right.
        - apply elem_of_app. left. by left. }
      unfold compareTimelineItemSummaries in Hcmp.
      apply orderedByComparator_cons in Hr as [_ Hnr].
      apply elem_of_cons in Hb as [-> | Hb]; [lia|].
      specialize (Hnr b Hb). lia. }
    destruct (decide (su_id o ∈ seen)) as [Hin | Hout].
    + by apply (IH Hl Hr Hst' seen x Hx).
    + apply elem_of_cons in Hx as [-> | Hx]; [done|].
      by apply (IH Hl Hr Hst' _ x Hx).
Qed.


End Ordering.

(** ** Merging the same batch a second time *)

Section MergeAgain.

Local Notation f := (mergeArrays compareTimelineItemSummaries).
Local Notation U := uniqByIdFrom.









End MergeAgain.

Section MergeAgainMain.

Local Notation f := (mergeArrays compareTimelineItemSummaries).
Local Notation U := uniqByIdFrom.






End MergeAgainMain.

(* ===================================================================== *)
(** * The merge engine: results of the two actions *)
(* ===================================================================== *)

Section MergeEngine.
Context `{S : SortItemSummaries} (L : SortItemSummariesLaws S).

Lemma addTimelineItemSummaries_result st inst tl batch stale :
  getForTimeline_timelineItemSummaries
    (Timeline.addTimelineItemSummaries st inst tl batch stale) inst tl
  = Some (Timeline.mergedSummaries tl
            (getForTimeline_timelineItemSummaries st inst tl) batch).
Proof.
  unfold Timeline.addTimelineItemSummaries, isEqual.
  set (old := getForTimeline_timelineItemSummaries st inst tl).
  set (m := Timeline.mergedSummaries tl old batch).
  assert (Hst1 : getForTimeline_timelineItemSummaries
            (if bool_decide (old = Some m) then st
             else setForTimeline st inst tl (PatchTimelineItemSummaries m)) inst tl
          = Some m).
  { case_bool_decide as Heq; [exact Heq|].
    unfold getForTimeline_timelineItemSummaries. simpl. apply lookup_insert_eq. }
  destruct (bool_decide
              (getForTimeline_timelineItemSummariesAreStale st inst tl = Some stale));
    exact Hst1.
Qed.

Lemma addPagedTimelineItemSummaries_result st inst tl batch :
  getForTimeline_timelineItemSummaries
    (Timeline.addPagedTimelineItemSummaries st inst tl batch) inst tl
  = Some (Timeline.pagedMergedSummaries tl
            (getForTimeline_timelineItemSummaries st inst tl) batch).
Proof.
  unfold Timeline.addPagedTimelineItemSummaries, isEqual.
  case_bool_decide as Heq; [exact Heq|].
  unfold getForTimeline_timelineItemSummaries. simpl. apply lookup_insert_eq.
Qed.

Lemma threadOrder_perm tl l : Timeline.threadOrder tl l ≡ₚ l.
Proof.
  unfold Timeline.threadOrder.
  destruct (String.eqb _ _); [apply sortThread_perm | done].
Qed.

Lemma batchForMerge_perm tl l : Timeline.batchForMerge tl l ≡ₚ l.
Proof.
  unfold Timeline.batchForMerge.
  destruct (String.eqb _ _); [apply sortNotification_perm | done].
Qed.

Lemma mergedSummaries_NoDup tl old batch :
  NoDup (su_id <$> Timeline.mergedSummaries tl old batch).
Proof.
  unfold Timeline.mergedSummaries.
  eapply NoDup_ids_perm; [symmetry; apply threadOrder_perm | apply uniqById_NoDup].
Qed.

Lemma pagedMergedSummaries_NoDup tl old batch :
  NoDup (su_id <$> Timeline.pagedMergedSummaries tl old batch).
Proof.
  unfold Timeline.pagedMergedSummaries.
  eapply NoDup_ids_perm; [symmetry; apply threadOrder_perm | apply uniqById_NoDup].
Qed.

(** C1. After a background-refresh merge and after a load-older merge the
    timeline holds a summary list in which no two entries share an id,
    whatever the old list and the batch contain. *)
Theorem merge_no_duplicate_ids st inst tl batch stale :
  (exists l,
      getForTimeline_timelineItemSummaries
        (Timeline.addTimelineItemSummaries st inst tl batch stale) inst tl = Some l
      /\ NoDup (su_id <$> l))
  /\ (exists l,
      getForTimeline_timelineItemSummaries
        (Timeline.addPagedTimelineItemSummaries st inst tl batch) inst tl = Some l
      /\ NoDup (su_id <$> l)).
Proof.
  split; eexists; split.
  - apply addTimelineItemSummaries_result.
  - apply mergedSummaries_NoDup.
  - apply addPagedTimelineItemSummaries_result.
  - apply pagedMergedSummaries_NoDup.
Qed.

Lemma threadOrder_other tl l :
  Timeline.timelineType tl <> "status" -> Timeline.threadOrder tl l = l.
Proof.
  intros Hne. unfold Timeline.threadOrder.
  destruct (String.eqb_spec (Timeline.timelineType tl) "status"); done.
Qed.





Lemma uniqById_subseteq l : uniqById l ⊆ l.
Proof. intros x Hx. by apply uniqByIdFrom_elem in Hx as [? _]. Qed.




End MergeEngine.

(* ===================================================================== *)
(** * The normalizer *)
(* ===================================================================== *)

Section Strings.



End Strings.

Section NormalizerFacts.
Import Normalizer.



Lemma transform_invalid sessionDid feedViewPost :
  structurallyInvalid feedViewPost ->
  transformAtprotoPostToEnaforeStatus sessionDid feedViewPost = None.
Proof.
  destruct feedViewPost as [fvp|]; [|done]. simpl.
  destruct (post fvp) as [p|]; [|done]. by intros ->.
Qed.


(** C5. A structurally invalid feed item (no item, no post, or no author)
    is normalized to [null]; [getTimeline] maps the feed through the
    transform and returns the items as they come, so for a feed holding a
    malformed item and a valid one it returns a [null] followed by the
    valid canonical item. *)
Theorem getTimeline_keeps_null_items :
  (forall sessionDid feedViewPost,
      structurallyInvalid feedViewPost ->
      transformAtprotoPostToEnaforeStatus sessionDid feedViewPost = None)
  /\ exists headers,
      getTimeline (Some "did:plc:me") Sample.feedWithMalformedItem
      = Returned ([None; Some (plainStatus Sample.postP Sample.alice None)], headers).
Proof.
  split; [apply transform_invalid|]. eexists. reflexivity.
Qed.

End NormalizerFacts.

(* ===================================================================== *)
(** * Like and repost *)
(* ===================================================================== *)

Section InteractionFacts.
Import Interaction.

(** On Protocol A the undo addresses the status the optimistic update
    addressed, with the flag negated. *)
Lemma setFavorited_activitypub_undo st statusId favorited e dbErr :
  online st = true -> currentAccountProtocol st <> Some Atproto ->
  favoritedTargets (setFavorited st statusId favorited (mkWorld (Rejected e) dbErr))
  = [(statusId, favorited, false); (statusId, negb favorited, true)].
Proof.
  intros Hon Hp. unfold setFavorited, isAtproto. rewrite Hon. simpl.
  rewrite bool_decide_eq_false_2 by done. reflexivity.
Qed.

Lemma setReblogged_activitypub_undo st statusId reblogged e dbErr :
  online st = true -> currentAccountProtocol st <> Some Atproto ->
  rebloggedTargets (setReblogged st statusId reblogged (mkWorld (Rejected e) dbErr))
  = [(statusId, reblogged, false); (statusId, negb reblogged, true)].
Proof.
  intros Hon Hp. unfold setReblogged, isAtproto. rewrite Hon. simpl.
  rewrite bool_decide_eq_false_2 by done. reflexivity.
Qed.

(** C6. A like and a repost of a Protocol-B post whose network call
    fails: the optimistic update is addressed to the post's uri, the undo
    is addressed to the whole bundle, which is another target. *)
Theorem rollback_misses_optimistic_target :
  let u := "at://did:plc:alice/app.bsky.feed.post/3k" in
  favoritedTargets
    (setFavorited Sample.atprotoStore (IdBundle Sample.postBundle) true Sample.networkDown)
  = [(IdString u, true, false); (IdBundle Sample.postBundle, false, true)]
  /\ rebloggedTargets
       (setReblogged Sample.atprotoStore (IdBundle Sample.postBundle) true Sample.networkDown)
     = [(IdString u, true, false); (IdBundle Sample.postBundle, false, true)]
  /\ IdBundle Sample.postBundle <> IdString u.
Proof. split; [reflexivity|]. split; [reflexivity|]. discriminate. Qed.


(** C10. Offline, [setFavorited] and [setReblogged] only show a toast:
    they issue no network call, no store call and no database call, so the
    store and the database are left as they were whatever their handlers
    do. *)
Theorem offline_only_toast st statusId flag w :
  online st = false ->
  setFavorited st statusId flag w
  = [toast (Say (if flag then "intl.cannotFavoriteOffline"
                 else "intl.cannotUnfavoriteOffline"))]
  /\ setReblogged st statusId flag w
     = [toast (Say (if flag then "intl.cannotReblogOffline"
                    else "intl.cannotUnreblogOffline"))]
  /\ (forall trace,
        trace = setFavorited st statusId flag w \/ trace = setReblogged st statusId flag w ->
        networkCalls trace = []
        /\ Forall (fun e => isEffect e = false) trace
        /\ (forall (S : Type) (step : StoreCall -> S -> S) s, runStore step trace s = s)
        /\ (forall (S : Type) (step : DatabaseCall -> S -> S) s,
              runDatabase step trace s = s)).
Proof.
  intros Hoff.
  assert (Hf : setFavorited st statusId flag w
               = [toast (Say (if flag then "intl.cannotFavoriteOffline"
                              else "intl.cannotUnfavoriteOffline"))]).
  { unfold setFavorited. by rewrite Hoff. }
  assert (Hr : setReblogged st statusId flag w
               = [toast (Say (if flag then "intl.cannotReblogOffline"
                              else "intl.cannotUnreblogOffline"))]).
  { unfold setReblogged. by rewrite Hoff. }
  split; [exact Hf|]. split; [exact Hr|].
  intros trace [-> | ->]; [rewrite Hf | rewrite Hr];
    (split; [reflexivity|]; split; [by repeat constructor|]; split; reflexivity).
Qed.

End InteractionFacts.

(* ===================================================================== *)
(** * Local deletion *)
(* ===================================================================== *)

Section DeleteFacts.
Import DeleteStatuses.

Lemma elem_of_uniqueFrom seen ids i :
  i ∈ uniqueFrom seen ids <-> i ∈ ids /\ i ∉ seen.
Proof.
  revert seen. induction ids as [|j ids IH]; intros seen; simpl.
  - rewrite elem_of_nil. naive_solver.
  - destruct (decide (j ∈ seen)) as [Hin | Hout].
    + rewrite IH, elem_of_cons. split; [naive_solver|].
      intros [[-> | Hi] Hns]; [done | by split].
    + rewrite !elem_of_cons, IH. split.
      * intros [-> | [Hi Hns]]; [split; [by left | done] | split; [by right | set_solver]].
      * intros [[-> | Hi] Hns]; [by left|].
        destruct (decide (i = j)) as [-> | Hne]; [by left | right].
        split; [done | set_solver].
Qed.

Lemma elem_of_unique ids i : i ∈ unique ids <-> i ∈ ids.
Proof. unfold unique. rewrite elem_of_uniqueFrom. set_solver. Qed.

Lemma elem_of_nonEmpty ids i : i ∈ nonEmpty ids <-> i ∈ ids /\ i <> EmptyString.
Proof.
  unfold nonEmpty. rewrite !list_elem_of_In, filter_In.
  destruct (String.eqb_spec i EmptyString); simpl; naive_solver.
Qed.

Lemma filterTimeline_filter idFilter summaries :
  filterTimeline idFilter summaries
  = List.filter (fun s => idFilter (su_id s)) summaries.
Proof.
  unfold filterTimeline, isEqual. case_bool_decide as Heq; [|done]. congruence.
Qed.

Lemma filterKey_lookup instanceName timelineFilter idFilter m k :
  filterKey instanceName timelineFilter idFilter m !! k
  = (fun summaries =>
       if String.eqb (fst k) instanceName && timelineFilter (snd k)
       then List.filter (fun s => idFilter (su_id s)) summaries
       else summaries) <$> m !! k.
Proof.
  unfold filterKey. rewrite map_lookup_imap.
  destruct (m !! k) as [summaries|]; simpl; [|done].
  destruct (_ && _); [by rewrite filterTimeline_filter | done].
Qed.

Lemma filter_removes (ids : list string) (l : list Summary) x :
  x ∈ List.filter (fun s => negb (hasId ids (su_id s))) l <-> x ∈ l /\ su_id x ∉ ids.
Proof.
  split.
  - intros Hx. apply list_elem_of_In, filter_In in Hx as [Hx Hf].
    split; [by apply list_elem_of_In|]. intros Hin. unfold hasId in Hf.
    rewrite bool_decide_eq_true_2 in Hf by done. discriminate.
  - intros [Hx Hn]. apply list_elem_of_In, filter_In.
    split; [by apply list_elem_of_In|]. unfold hasId.
    by rewrite bool_decide_eq_false_2.
Qed.


End DeleteFacts.

(* ===================================================================== *)
(** * Feed cursors *)
(* ===================================================================== *)

Section CursorFacts.
Import Cursor.
Context `{C : Storage} (L : StorageLaws C).








End CursorFacts.

(* ===================================================================== *)
(** * The theorems at sample inputs *)
(* ===================================================================== *)

Section ReferenceInstances.

Local Instance summaryLe_trans : Transitive summaryLe.
Proof. intros x y z. unfold summaryLe. lia. Qed.

Local Instance summaryLe_total : Total summaryLe.
Proof. intros x y. unfold summaryLe. lia. Qed.

Local Instance summaryLe_antisym : AntiSymm (=) summaryLe.
Proof.
  intros x y Hxy Hyx. unfold summaryLe in *.
  apply (inj encode). lia.
Qed.

Lemma referenceSorts_laws : SortItemSummariesLaws referenceSorts.
Proof.
  split; simpl.
  - intros l _. apply merge_sort_Permutation.
  - intros l1 l2 _ Hp.
    apply (StronglySorted_unique summaryLe).
    + apply StronglySorted_merge_sort; apply _.
    + apply StronglySorted_merge_sort; apply _.
    + by rewrite !merge_sort_Permutation.
  - intros l. apply merge_sort_Permutation.
Qed.


End ReferenceInstances.

Lemma merge_no_duplicate_ids_witness :
  SortItemSummariesLaws referenceSorts
  /\ (exists l,
        getForTimeline_timelineItemSummaries
          (@Timeline.addTimelineItemSummaries referenceSorts Sample.homeStore
             "mastodon.example" "home" [Sample.a'; Sample.c; Sample.c] false)
          "mastodon.example" "home" = Some l
        /\ NoDup (su_id <$> l)).
Proof.
  split; [exact referenceSorts_laws|].
  exact (proj1 (merge_no_duplicate_ids referenceSorts_laws Sample.homeStore
                  "mastodon.example" "home" [Sample.a'; Sample.c; Sample.c] false)).
Defined.

Example mergedSummaries_home :
  @Timeline.mergedSummaries referenceSorts "home" (Some [Sample.a; Sample.b])
    [Sample.a'; Sample.c]
  = [Sample.a'; Sample.c; Sample.b].
Proof. vm_compute. reflexivity. Qed.

Example pagedMergedSummaries_home :
  @Timeline.pagedMergedSummaries referenceSorts "home" (Some [Sample.a; Sample.b])
    [Sample.a'; Sample.c]
  = [Sample.a; Sample.b; Sample.c].
Proof. vm_compute. reflexivity. Qed.







Lemma offline_only_toast_witness :
  online Sample.offlineStore = false
  /\ Interaction.setFavorited Sample.offlineStore (Interaction.IdString "42") true
       Sample.networkUp
     = [Interaction.toast (Interaction.Say "intl.cannotFavoriteOffline")].
Proof.
  split; [reflexivity|].
  exact (proj1 (offline_only_toast Sample.offlineStore (Interaction.IdString "42") true
                  Sample.networkUp eq_refl)).
Defined.

(* ===================================================================== *)
(** * More on the merge engine *)
(* ===================================================================== *)

Section MergeEngineMore.
Context `{S : SortItemSummaries} (L : SortItemSummariesLaws S).

Lemma batchForMerge_nil tl : Timeline.batchForMerge tl [] = [].
Proof. apply Permutation_nil_r. apply (batchForMerge_perm L). Qed.

Lemma idsOf_mergedSummaries tl old batch :
  idsOf (Timeline.mergedSummaries tl old batch) = idsOf (default [] old) ∪ idsOf batch.
Proof.
  unfold Timeline.mergedSummaries.
  rewrite (idsOf_perm _ _ (threadOrder_perm L tl _)), idsOf_uniqById, idsOf_mergeArrays.
  by rewrite (idsOf_perm _ _ (batchForMerge_perm L tl batch)).
Qed.

Lemma idsOf_pagedMergedSummaries tl old batch :
  idsOf (Timeline.pagedMergedSummaries tl old batch)
  = idsOf (default [] old) ∪ idsOf batch.
Proof.
  unfold Timeline.pagedMergedSummaries, concat.
  rewrite (idsOf_perm _ _ (threadOrder_perm L tl _)), idsOf_uniqById, idsOf_app.
  by rewrite (idsOf_perm _ _ (batchForMerge_perm L tl batch)).
Qed.

Lemma mergedSummaries_subseteq tl old batch :
  Timeline.mergedSummaries tl old batch ⊆ default [] old ++ batch.
Proof.
  intros x Hx. unfold Timeline.mergedSummaries in Hx.
  rewrite (threadOrder_perm L) in Hx. apply uniqById_subseteq in Hx.
  rewrite mergeArrays_perm in Hx.
  by rewrite (batchForMerge_perm L tl batch) in Hx.
Qed.

Lemma pagedMergedSummaries_subseteq tl old batch :
  Timeline.pagedMergedSummaries tl old batch ⊆ default [] old ++ batch.
Proof.
  intros x Hx. unfold Timeline.pagedMergedSummaries, concat in Hx.
  rewrite (threadOrder_perm L) in Hx. apply uniqById_subseteq in Hx.
  by rewrite (batchForMerge_perm L tl batch) in Hx.
Qed.

(** X1. Neither merge drops or invents an item: the list a timeline holds
    after a background-refresh merge or a load-older merge has exactly the
    ids of the old list and of the batch, and each of its entries is an
    entry of the old list or of the batch. *)
Theorem merge_keeps_every_id st inst tl batch stale :
  let old := default [] (getForTimeline_timelineItemSummaries st inst tl) in
  (exists l,
      getForTimeline_timelineItemSummaries
        (Timeline.addTimelineItemSummaries st inst tl batch stale) inst tl = Some l
      /\ idsOf l = idsOf old ∪ idsOf batch
      /\ l ⊆ old ++ batch)
  /\ (exists l,
      getForTimeline_timelineItemSummaries
        (Timeline.addPagedTimelineItemSummaries st inst tl batch) inst tl = Some l
      /\ idsOf l = idsOf old ∪ idsOf batch
      /\ l ⊆ old ++ batch).
Proof.
  intros old. split; eexists; (split; [|split]).
  - apply addTimelineItemSummaries_result.
  - apply idsOf_mergedSummaries.
  - apply mergedSummaries_subseteq.
  - apply addPagedTimelineItemSummaries_result.
  - apply idsOf_pagedMergedSummaries.
  - apply pagedMergedSummaries_subseteq.
Qed.

(** X2. An empty batch writes nothing: on a timeline other than a thread
    whose list has no two entries with one id, the load-older merge of an
    empty batch leaves the store as it is, and so does the background
    refresh when the staleness flag it is given is the one stored.  On a
    timeline with no list yet, both merges store the empty list. *)
Theorem merge_empty_batch st inst tl stale :
  (forall l,
      getForTimeline_timelineItemSummaries st inst tl = Some l ->
      NoDup (su_id <$> l) ->
      Timeline.timelineType tl <> "status" ->
      Timeline.addPagedTimelineItemSummaries st inst tl [] = st
      /\ (getForTimeline_timelineItemSummariesAreStale st inst tl = Some stale ->
          Timeline.addTimelineItemSummaries st inst tl [] stale = st))
  /\ (getForTimeline_timelineItemSummaries st inst tl = None ->
      getForTimeline_timelineItemSummaries
        (Timeline.addPagedTimelineItemSummaries st inst tl []) inst tl = Some []
      /\ getForTimeline_timelineItemSummaries
           (Timeline.addTimelineItemSummaries st inst tl [] stale) inst tl = Some []).
Proof.
  split.
  - intros l Hl Hnd Hty.
    assert (Hp : Timeline.pagedMergedSummaries tl (Some l) [] = l).
    { unfold Timeline.pagedMergedSummaries, concat. rewrite batchForMerge_nil.
      simpl default. rewrite app_nil_r, uniqById_fixed by done.
      by apply threadOrder_other. }
    assert (Hm : Timeline.mergedSummaries tl (Some l) [] = l).
    { unfold Timeline.mergedSummaries. rewrite batchForMerge_nil.
      simpl default. rewrite mergeArrays_nil_r, uniqById_fixed by done.
      by apply threadOrder_other. }
    split.
    + unfold Timeline.addPagedTimelineItemSummaries. rewrite Hl, Hp.
      unfold isEqual. by rewrite bool_decide_eq_true_2.
    + intros Hst. unfold Timeline.addTimelineItemSummaries. rewrite Hl, Hm, Hst.
      unfold isEqual. by rewrite !bool_decide_eq_true_2.
  - intros Hnone.
    assert (Hsort : forall sid, sortItemSummariesForThread [] sid = []).
    { intros sid. apply Permutation_nil_r. apply sortThread_perm. }
    split.
    + rewrite addPagedTimelineItemSummaries_result, Hnone. f_equal.
      unfold Timeline.pagedMergedSummaries, concat. rewrite batchForMerge_nil.
      simpl. unfold Timeline.threadOrder. destruct (String.eqb _ _); [apply Hsort | done].
    + rewrite addTimelineItemSummaries_result, Hnone. f_equal.
      unfold Timeline.mergedSummaries. rewrite batchForMerge_nil.
      simpl. unfold Timeline.threadOrder. destruct (String.eqb _ _); [apply Hsort | done].
Qed.

End MergeEngineMore.

Section MergeFrame.
Context `{S : SortItemSummaries}.

(** X3. A merge into one timeline touches nothing else: the lists and
    staleness flags of every other timeline, all lists of items that wait
    to be shown and all page tokens are left as they were, by the
    background refresh and by the load-older merge. *)
Theorem merge_touches_one_timeline st inst tl batch stale :
  let st1 := Timeline.addTimelineItemSummaries st inst tl batch stale in
  let st2 := Timeline.addPagedTimelineItemSummaries st inst tl batch in
  (forall k, k <> (inst, tl) ->
     timelineItemSummaries st1 !! k = timelineItemSummaries st !! k
     /\ timelineItemSummariesAreStale st1 !! k = timelineItemSummariesAreStale st !! k
     /\ timelineItemSummaries st2 !! k = timelineItemSummaries st !! k)
  /\ timelineItemSummariesToAdd st1 = timelineItemSummariesToAdd st
  /\ timelineNextPageId st1 = timelineNextPageId st
  /\ timelineItemSummariesAreStale st2 = timelineItemSummariesAreStale st
  /\ timelineItemSummariesToAdd st2 = timelineItemSummariesToAdd st
  /\ timelineNextPageId st2 = timelineNextPageId st.
Proof.
  intros st1 st2. subst st1 st2.
  unfold Timeline.addTimelineItemSummaries, Timeline.addPagedTimelineItemSummaries.
  destruct (isEqual _ (Timeline.mergedSummaries _ _ _));
    destruct (isEqual _ (Timeline.pagedMergedSummaries _ _ _));
    destruct (bool_decide _); simpl;
    (split; [intros k Hk; rewrite ?lookup_insert_ne by done; done | done]).
Qed.

End MergeFrame.

(* ===================================================================== *)
(** * Showing the items that wait *)
(* ===================================================================== *)

Section SortFacts.

Local Abbreviation cmp := compareTimelineItemSummaries.

Lemma insertSorted_perm x l : ShowMore.insertSorted cmp x l ≡ₚ x :: l.
Proof.
  induction l as [|y l IH]; simpl; [done|].
  destruct (cmp x y <=? 0); [done|]. rewrite IH. apply Permutation_swap.
Qed.

Lemma sort_perm l : ShowMore.sort cmp l ≡ₚ l.
Proof.
  induction l as [|x l IH]; simpl; [done|].
  unfold ShowMore.sort in *. simpl. by rewrite insertSorted_perm, IH.
Qed.

Lemma insertSorted_ascending x l :
  ascending l -> ascending (ShowMore.insertSorted cmp x l).
Proof.
  unfold ascending. induction l as [|y l IH]; intros Hs; simpl.
  - repeat constructor.
  - apply StronglySorted_inv in Hs as [Hs Hall].
    unfold compareTimelineItemSummaries.
    destruct (Z.leb_spec (su_sortKey x - su_sortKey y) 0) as [Hle | Hgt].
    + constructor; [by constructor|]. constructor; [lia|].
      eapply Forall_impl; [exact Hall|]. simpl. intros z Hz. lia.
    + constructor; [by apply IH|].
      rewrite Forall_forall. intros z Hz.
      rewrite insertSorted_perm in Hz. apply elem_of_cons in Hz as [-> | Hz]; [lia|].
      rewrite Forall_forall in Hall. by apply Hall.
Qed.

Lemma sort_ascending l : ascending (ShowMore.sort cmp l).
Proof.
  induction l as [|x l IH]; [constructor|].
  unfold ShowMore.sort in *. simpl. by apply insertSorted_ascending.
Qed.

Lemma ordered_snoc l x :
  orderedByComparator l -> (forall y, y ∈ l -> su_sortKey x <= su_sortKey y) ->
  orderedByComparator (l ++ [x]).
Proof.
  induction l as [|z l IH]; intros Hs Hall; simpl.
  - repeat constructor.
  - apply orderedByComparator_cons in Hs as [Hs Hz].
    apply orderedByComparator_cons. split.
    + apply IH; [done|]. intros y Hy. apply Hall. by right.
    + intros y Hy. apply elem_of_app in Hy as [Hy | Hy]; [by apply Hz|].
      apply list_elem_of_singleton in Hy as ->. apply Hall. by left.
Qed.

Lemma ascending_rev l : ascending l -> orderedByComparator (rev l).
Proof.
  unfold ascending. induction l as [|x l IH]; intros Hs; simpl; [constructor|].
  apply StronglySorted_inv in Hs as [Hs Hall].
  apply ordered_snoc; [by apply IH|].
  intros y Hy. rewrite Forall_forall in Hall. apply Hall.
  apply list_elem_of_In, in_rev. by apply list_elem_of_In.
Qed.

End SortFacts.

Section ShowMoreFacts.
Context `{S : SortItemSummaries} (L : SortItemSummariesLaws S).

Lemma sortedToAdd_perm st inst tl :
  ShowMore.sortedToAdd st inst tl
  ≡ₚ default [] (getForTimeline_timelineItemSummariesToAdd st inst tl).
Proof. unfold ShowMore.sortedToAdd. rewrite <- Permutation_rev. apply sort_perm. Qed.

Lemma showMoreItemsForTimeline_summaries st inst tl :
  getForTimeline_timelineItemSummaries
    (fst (ShowMore.showMoreItemsForTimeline st inst tl)) inst tl
  = Some (Timeline.mergedSummaries tl (getForTimeline_timelineItemSummaries st inst tl)
            (ShowMore.sortedToAdd st inst tl)).
Proof.
  unfold ShowMore.showMoreItemsForTimeline. simpl.
  apply (addTimelineItemSummaries_result st inst tl (ShowMore.sortedToAdd st inst tl) false).
Qed.

(** X4. Showing the waiting items of a timeline loses nothing: afterwards
    the list of waiting items is empty, the timeline is marked as not stale,
    and the list shown has no two entries with one id and holds exactly the
    ids that were shown or waiting before. *)
Theorem showMoreItemsForTimeline_shows_all st inst tl :
  let old := default [] (getForTimeline_timelineItemSummaries st inst tl) in
  let toAdd := default [] (getForTimeline_timelineItemSummariesToAdd st inst tl) in
  let st' := fst (ShowMore.showMoreItemsForTimeline st inst tl) in
  getForTimeline_timelineItemSummariesToAdd st' inst tl = Some []
  /\ getForTimeline_timelineItemSummariesAreStale st' inst tl = Some false
  /\ snd (ShowMore.showMoreItemsForTimeline st inst tl) = ShowMore.mkHeaderFlags false false
  /\ exists l,
       getForTimeline_timelineItemSummaries st' inst tl = Some l
       /\ NoDup (su_id <$> l)
       /\ idsOf l = idsOf old ∪ idsOf toAdd.
Proof.
  intros old toAdd st'. split; [|split; [|split]].
  - unfold st', ShowMore.showMoreItemsForTimeline,
      getForTimeline_timelineItemSummariesToAdd. simpl. apply lookup_insert_eq.
  - unfold st', ShowMore.showMoreItemsForTimeline,
      getForTimeline_timelineItemSummariesAreStale. simpl.
    unfold Timeline.addTimelineItemSummaries.
    case_bool_decide as Hs.
    + destruct (isEqual _ _); exact Hs.
    + simpl. apply lookup_insert_eq.
  - done.
  - eexists. split; [apply showMoreItemsForTimeline_summaries|]. split.
    + apply (mergedSummaries_NoDup L).
    + rewrite (idsOf_mergedSummaries L). fold old.
      by rewrite (idsOf_perm _ _ (sortedToAdd_perm st inst tl)).
Qed.

(** X5. [showMoreItemsForTimeline] hands the merge a batch in comparator
    order (most recent first).  So on a timeline that is neither a thread
    nor the notifications, whose shown list is in comparator order and
    whose sort keys are stable per id, the list shown afterwards is in
    comparator order and holds, for each id that was waiting, the waiting
    entry. *)
Theorem showMoreItemsForTimeline_ordered st inst tl :
  let old := default [] (getForTimeline_timelineItemSummaries st inst tl) in
  let toAdd := default [] (getForTimeline_timelineItemSummariesToAdd st inst tl) in
  orderedByComparator (ShowMore.sortedToAdd st inst tl)
  /\ (Timeline.timelineType tl <> "status" ->
      Timeline.timelineType tl <> "notifications" ->
      orderedByComparator old -> sortKeysStable (old ++ toAdd) ->
      exists l,
        getForTimeline_timelineItemSummaries
          (fst (ShowMore.showMoreItemsForTimeline st inst tl)) inst tl = Some l
        /\ orderedByComparator l
        /\ forall x, x ∈ l -> su_id x ∈ idsOf toAdd -> x ∈ toAdd).
Proof.
  intros old toAdd.
  assert (Hb : orderedByComparator (ShowMore.sortedToAdd st inst tl)).
  { unfold ShowMore.sortedToAdd. apply ascending_rev, sort_ascending. }
  split; [exact Hb|]. intros Hty Hnt Ho Hst.
  pose proof (sortedToAdd_perm st inst tl) as Hperm. fold toAdd in Hperm.
  assert (Hbatch : Timeline.batchForMerge tl (ShowMore.sortedToAdd st inst tl)
                   = ShowMore.sortedToAdd st inst tl).
  { unfold Timeline.batchForMerge.
    by rewrite (proj2 (String.eqb_neq _ _) Hnt). }
  assert (Hst' : sortKeysStable (old ++ ShowMore.sortedToAdd st inst tl)).
  { intros a b Ha Hb'. apply Hst; [by rewrite <- Hperm | by rewrite <- Hperm]. }
  eexists. split; [apply showMoreItemsForTimeline_summaries|].
  unfold Timeline.mergedSummaries. rewrite Hbatch, threadOrder_other by done.
  fold old. split.
  - apply uniqByIdFrom_ordered. by apply mergeArrays_ordered.
  - intros x Hx Hid. rewrite <- Hperm.
    apply (uniqById_mergeArrays_new_wins old _ Ho Hb Hst' ∅ x Hx).
    by rewrite (idsOf_perm _ _ Hperm).
Qed.

(** X6. Showing the waiting items of a thread keeps what is shown: the
    call fails when the timeline has no list or no list of waiting items;
    otherwise the list of waiting items is emptied, and a summary is in the
    list shown afterwards exactly when it was shown before, or was waiting
    with an id that no shown summary had. *)
Theorem showMoreItemsForThread_keeps_shown st inst tl :
  (ShowMore.showMoreItemsForThread st inst tl = None
   <-> getForTimeline_timelineItemSummaries st inst tl = None
       \/ getForTimeline_timelineItemSummariesToAdd st inst tl = None)
  /\ forall st',
       ShowMore.showMoreItemsForThread st inst tl = Some st' ->
       exists old toAdd l,
         getForTimeline_timelineItemSummaries st inst tl = Some old
         /\ getForTimeline_timelineItemSummariesToAdd st inst tl = Some toAdd
         /\ getForTimeline_timelineItemSummariesToAdd st' inst tl = Some []
         /\ getForTimeline_timelineItemSummaries st' inst tl = Some l
         /\ length l = (length old
                        + length (filter (fun x => su_id x ∉ idsOf old) toAdd))%nat
         /\ forall x, x ∈ l <-> x ∈ old \/ (x ∈ toAdd /\ su_id x ∉ idsOf old).
Proof.
  unfold ShowMore.showMoreItemsForThread.
  destruct (getForTimeline_timelineItemSummaries st inst tl) as [old|] eqn:Ho;
    destruct (getForTimeline_timelineItemSummariesToAdd st inst tl) as [toAdd|] eqn:Ha.
  - split; [split; [done | by intros [? | ?]]|].
    intros st' Hst'. injection Hst' as <-. exists old, toAdd. eexists.
    split; [done|]. split; [done|]. split; [|split; [|split]].
    + unfold getForTimeline_timelineItemSummariesToAdd. simpl. apply lookup_insert_eq.
    + unfold getForTimeline_timelineItemSummaries. simpl. apply lookup_insert_eq.
    + rewrite (Permutation_length (sortThread_perm _ _)). by rewrite length_app.
    + intros x. rewrite (sortThread_perm _ _), elem_of_app, list_elem_of_filter.
      tauto.
  - split; [split; [by right | done] | done].
  - split; [split; [by left | done] | done].
  - split; [split; [by left | done] | done].
Qed.

End ShowMoreFacts.

(* ===================================================================== *)
(** * Which feed a timeline name asks for *)
(* ===================================================================== *)

Section FeedRequestFacts.
Import Cursor FeedRequest.

Lemma prefix_app p s : String.prefix p s = true <-> exists r, s = p +:+ r.
Proof.
  revert s. induction p as [|a p IH]; intros s; simpl.
  - destruct s; (split; [intros _; eexists; reflexivity | done]).
  - destruct s as [|b s]; simpl.
    + split; [done | by intros [r Hr]].
    + destruct (ascii_dec a b) as [-> | Hne].
      * rewrite IH. split; intros [r Hr]; exists r; [by rewrite Hr | by injection Hr].
      * split; [done|]. intros [r Hr]. injection Hr as Hab _. by symmetry in Hab.
Qed.

Lemma split_nonempty sep s : Js.split sep s <> [].
Proof.
  induction s as [|c s IH]; simpl; [done|].
  destruct (Ascii.eqb c sep); [done|]. by destruct (Js.split sep s).
Qed.

(** No piece of [s.split(sep)] holds the separator. *)
Lemma split_no_sep sep s seg :
  seg ∈ Js.split sep s -> forall a b, seg <> a +:+ String sep b.
Proof.
  revert seg. induction s as [|c s IH]; intros seg Hin a b; simpl in Hin.
  - apply list_elem_of_singleton in Hin as ->. by destruct a.
  - destruct (Ascii.eqb_spec c sep) as [-> | Hne].
    + apply elem_of_cons in Hin as [-> | Hin]; [by destruct a | by apply IH].
    + pose proof (split_nonempty sep s) as Hnil.
      destruct (Js.split sep s) as [|h t]; [done|].
      apply elem_of_cons in Hin as [-> | Hin].
      * destruct a as [|a0 a]; simpl; [by intros [= ->] |].
        intros [= -> Hh]. revert Hh. apply IH. by left.
      * apply IH. by right.
Qed.

Lemma hd_split_no_sep sep s a b :
  hd EmptyString (Js.split sep s) <> a +:+ String sep b.
Proof.
  apply split_no_sep with (s := s).
  pose proof (split_nonempty sep s). destruct (Js.split sep s); [done | by left].
Qed.

Lemma truthy_Some s : Js.truthy (Some s) = negb (String.eqb s EmptyString).
Proof. reflexivity. Qed.

(** X7. The feed that a Protocol-B timeline asks the agent for, from the
    timeline name through [atprotoFeedOf] and the choice made in
    [getTimeline]: a name that starts with [at://] asks [getFeed] for that
    very feed; [federated] asks [getFeed] for the "what's hot" feed; any
    other name that is not an account timeline (so [home], and every name
    that is not mapped) asks [getTimeline] for the default feed; an account
    timeline never asks [getFeed], asks [getAuthorFeed] for the account
    when its id starts with [did:], and asks for the default feed when the
    id is empty. *)
Theorem endpoint_of_timeline timelineName :
  let request := endpointOf (fst (atprotoFeedOf timelineName)) in
  (Js.startsWith timelineName "at://" = true -> request = getFeed timelineName)
  /\ (timelineName = "federated" -> request = getFeed whatsHot)
  /\ (Js.startsWith timelineName "account/" = false ->
      Js.startsWith timelineName "at://" = false ->
      timelineName <> "federated" ->
      request = agentGetTimeline None)
  /\ (Js.startsWith timelineName "account/" = true ->
      let accountId :=
        hd EmptyString (Js.split "/" (Js.substringFrom 8 timelineName)) in
      (forall feed, request <> getFeed feed)
      /\ (Js.startsWith accountId "did:" = true -> request = getAuthorFeed accountId)
      /\ (accountId = EmptyString -> request = agentGetTimeline None)).
Proof.
  intros request. subst request. split; [|split; [|split]].
  - intros Hat. pose proof Hat as [r Hr]%prefix_app.
    assert (Hacc : Js.startsWith timelineName "account/" = false) by (by rewrite Hr).
    assert (Hhome : String.eqb timelineName "home" = false) by (by rewrite Hr).
    assert (Hfed : String.eqb timelineName "federated" = false) by (by rewrite Hr).
    assert (Hne : String.eqb timelineName EmptyString = false) by (by rewrite Hr).
    unfold atprotoFeedOf. rewrite Hacc, Hhome, Hfed, Hat. simpl fst.
    unfold endpointOf. rewrite truthy_Some, Hne. simpl negb. cbv iota. by rewrite Hat.
  - intros ->. reflexivity.
  - intros Hacc Hat Hfed. unfold atprotoFeedOf. rewrite Hacc, Hat.
    rewrite (proj2 (String.eqb_neq _ _) Hfed). by destruct (String.eqb _ "home").
  - intros Hacc accountId. unfold atprotoFeedOf. rewrite Hacc. simpl fst.
    fold accountId. unfold endpointOf. rewrite truthy_Some.
    assert (Hnot : Js.startsWith accountId "at://" = false).
    { destruct (Js.startsWith accountId "at://") eqn:Hat; [|done].
      unfold Js.startsWith in Hat. apply prefix_app in Hat as [r Hr].
      by destruct (hd_split_no_sep "/" (Js.substringFrom 8 timelineName)
                     "at:" ("/" +:+ r)). }
    destruct (String.eqb_spec accountId EmptyString) as [He | Hne]; simpl.
    + split; [done|]. split; [|done]. intros Hdid. rewrite He in Hdid. discriminate.
    + rewrite Hnot. split; [|split; [|done]].
      * intros feed. by destruct (_ || _).
      * intros ->. reflexivity.
Qed.

End FeedRequestFacts.

(* ===================================================================== *)
(** * More on the normalizer *)
(* ===================================================================== *)

Section NormalizerMore.
Import Normalizer.


Lemma has_false l x : has l x = false <-> x ∉ l.
Proof. unfold has. apply bool_decide_eq_false. Qed.











Lemma orElse_nonempty a b : b <> EmptyString -> orElse a b <> EmptyString.
Proof.
  intros Hb. unfold orElse. destruct a as [s|]; [|done].
  by destruct (String.eqb_spec s EmptyString).
Qed.

(** X11. The account built from a profile: there is none exactly when the
    profile is missing or has an empty did or handle; an account that is
    built has the profile's did as id, its handle as user name, and neither
    of these nor the display name is empty: the display name falls back to
    the handle.  Its [acct] is the handle, an [@], and the host name
    given, when one is given. *)
Theorem account_of_profile profileViewBasic pdsHostname :
  (transformProfileViewBasicToEnaforeAccount profileViewBasic pdsHostname = None
   <-> match profileViewBasic with
       | None => True
       | Some p => did p = EmptyString \/ handle p = EmptyString
       end)
  /\ forall acc,
       transformProfileViewBasicToEnaforeAccount profileViewBasic pdsHostname = Some acc ->
       exists p,
         profileViewBasic = Some p
         /\ acc_id acc = did p /\ acc_did acc = did p /\ acc_username acc = handle p
         /\ acc_id acc <> EmptyString /\ acc_username acc <> EmptyString
         /\ acc_displayName acc <> EmptyString
         /\ (Js.truthy (displayName p) = false -> acc_displayName acc = handle p)
         /\ (forall host, pdsHostname = Some host -> host <> EmptyString ->
               acc_acct acc = handle p +:+ "@" +:+ host).
Proof.
  unfold transformProfileViewBasicToEnaforeAccount.
  destruct profileViewBasic as [p|]; [|split; [done | by intros]].
  destruct (String.eqb_spec (did p) EmptyString) as [Hd | Hd]; simpl.
  { split; [split; [by left | done] | by intros]. }
  destruct (String.eqb_spec (handle p) EmptyString) as [Hh | Hh]; simpl.
  { split; [split; [by right | done] | by intros]. }
  split; [split; [done | by intros [? | ?]]|].
  intros acc [= <-]. exists p. simpl.
  repeat (split; [done|]). split; [by apply orElse_nonempty|]. split.
  - unfold orElse, Js.truthy. destruct (displayName p) as [n|]; [|done].
    by destruct (String.eqb n EmptyString).
  - intros host -> Hhost. unfold orElse.
    by rewrite (proj2 (String.eqb_neq _ _) Hhost).
Qed.

End NormalizerMore.

(* ===================================================================== *)
(** * More on like and repost *)
(* ===================================================================== *)

Section InteractionMore.
Import Interaction.

(** Splits a membership in a trace that is written out. *)
Ltac in_trace H :=
  repeat (apply elem_of_cons in H as [H | H]; [try discriminate H|]);
  try (by apply elem_of_nil in H).

(** X12. Every run of [setFavorited] and of [setReblogged] either shows
    one message and does nothing else, or starts the network request first,
    makes the optimistic store update next, and sends no other request;
    any later update of the flag is the undo, with the flag negated. *)
Theorem request_then_optimistic_update st statusId flag w :
  let inst := currentInstance st in
  let proto := currentAccountProtocol st in
  ((exists m, setFavorited st statusId flag w = [toast (Say m)])
   \/ exists c target rest,
        setFavorited st statusId flag w
        = network c :: store (setStatusFavorited inst target flag proto false) :: rest
        /\ networkCalls rest = []
        /\ forall i t f pr u,
             store (setStatusFavorited i t f pr u) ∈ rest -> f = negb flag /\ u = true)
  /\ ((exists m, setReblogged st statusId flag w = [toast (Say m)])
      \/ exists c target rest,
           setReblogged st statusId flag w
           = network c :: store (setStatusReblogged inst target flag proto false) :: rest
           /\ networkCalls rest = []
           /\ forall i t f pr u,
                store (setStatusReblogged i t f pr u) ∈ rest -> f = negb flag /\ u = true).
Proof.
  intros inst proto. subst inst proto. split.
  - unfold setFavorited. repeat case_match; simplify_eq;
      first [ left; eexists; reflexivity
            | right; do 3 eexists; split; [reflexivity|]; split; [reflexivity|];
              intros i t f pr u Hin; simpl in Hin; in_trace Hin; by simplify_eq ].
  - unfold setReblogged. repeat case_match; simplify_eq;
      first [ left; eexists; reflexivity
            | right; do 3 eexists; split; [reflexivity|]; split; [reflexivity|];
              intros i t f pr u Hin; simpl in Hin; in_trace Hin; by simplify_eq ].
Qed.


(** X13. The two protocols are kept apart in [setFavorited] and
    [setReblogged].  On a Protocol-B account every request goes to the
    Protocol-B API and the Protocol-A database is never written.  On any
    other account every request goes to the Protocol-A API, for the
    current instance, with the access token of the store and for the
    status as it was passed in, and no like or repost record is written to
    the store. *)
Theorem protocols_kept_apart st statusId flag w trace :
  trace = setFavorited st statusId flag w \/ trace = setReblogged st statusId flag w ->
  (currentAccountProtocol st = Some Atproto ->
     (forall c, network c ∈ trace -> isAtprotoCall c = true)
     /\ forall c, database c ∉ trace)
  /\ (currentAccountProtocol st <> Some Atproto ->
     (forall c, network c ∈ trace ->
        activityPubTarget c = Some (currentInstance st, accessToken st, statusId))
     /\ forall c, store c ∈ trace -> isReferenceWrite c = false).
Proof.
  intros Htrace. split.
  - intros Hp.
    assert (Hat : isAtproto (currentAccountProtocol st) = true).
    { unfold isAtproto. by rewrite bool_decide_eq_true_2. }
    destruct Htrace as [-> | ->]; [unfold setFavorited | unfold setReblogged];
      rewrite Hat; repeat case_match; simplify_eq;
      (split; intros call Hin; simpl in Hin; in_trace Hin; by simplify_eq).
  - intros Hp.
    assert (Hat : isAtproto (currentAccountProtocol st) = false).
    { unfold isAtproto. by rewrite bool_decide_eq_false_2. }
    destruct Htrace as [-> | ->]; [unfold setFavorited | unfold setReblogged];
      rewrite Hat; repeat case_match; simplify_eq;
      (split; intros call Hin; simpl in Hin; in_trace Hin; by simplify_eq).
Qed.

(** X14. A message is shown only when something went wrong: if the trace
    of [setFavorited] or [setReblogged] holds a toast, then the client was
    offline, or the action stopped before any request (post information
    missing), or the network request was rejected, or, on an account that
    is not Protocol B, the database write was rejected. *)
Theorem toast_only_on_failure st statusId flag w trace :
  trace = setFavorited st statusId flag w \/ trace = setReblogged st statusId flag w ->
  (exists t, toast t ∈ trace) ->
  online st = false
  \/ networkCalls trace = []
  \/ (exists e, networkAnswer w = Rejected e)
  \/ (currentAccountProtocol st <> Some Atproto /\ exists e, databaseError w = Some e).
Proof.
  intros Htrace [t Hin].
  destruct (online st) eqn:Hon; [|by left]. right.
  destruct (networkAnswer w) as [r|e] eqn:Hnet; [|right; left; by eexists].
  destruct (databaseError w) as [e|] eqn:Hdb.
  - destruct (decide (currentAccountProtocol st = Some Atproto)) as [Hp | Hp];
      [|right; right; split; [done | by eexists]].
    left.
    destruct Htrace as [-> | ->]; [unfold setFavorited in * | unfold setReblogged in *];
      unfold isAtproto in *; rewrite Hon, Hnet in *;
      rewrite bool_decide_eq_true_2 in * by done;
      revert Hin; repeat case_match; simplify_eq; intros Hin; simpl in Hin;
      try done; in_trace Hin.
  - left.
    destruct Htrace as [-> | ->]; [unfold setFavorited in * | unfold setReblogged in *];
      rewrite Hon, Hnet, ?Hdb in *;
      revert Hin; repeat case_match; simplify_eq; intros Hin; simpl in Hin;
      try done; in_trace Hin.
Qed.

(** X15. What a like or an unlike of a Protocol-B post that succeeds
    leaves in the store: after the optimistic update, a like records the
    uri of the like record the server answered with, under the uri of the
    post, and records nothing when the answer carries no uri; an unlike
    given the like record clears it.  The same holds for a repost and its
    removal. *)
Theorem atproto_success_records_reference st b u c r :
  online st = true -> currentAccountProtocol st = Some Atproto ->
  uri b = Some u -> u <> EmptyString -> cid b = Some c -> c <> EmptyString ->
  let inst := currentInstance st in
  let like := fun ref isLiked => store (setPostLikeUri inst (Some u) ref isLiked) in
  let repost := fun ref isReposted =>
    store (setPostRepostUri inst (Some u) ref isReposted) in
  let favorited := fun f =>
    store (setStatusFavorited inst (IdString u) f (Some Atproto) false) in
  let reblogged := fun f =>
    store (setStatusReblogged inst (IdString u) f (Some Atproto) false) in
  forall dbErr,
    let w := mkWorld (Resolved r) dbErr in
    setFavorited st (IdBundle b) true w
    = [network (likePost (Some u) (Some c)); favorited true]
      ++ (if Js.truthy r then [like r true] else [])
    /\ setReblogged st (IdBundle b) true w
       = [network (repostPost (Some u) (Some c)); reblogged true]
         ++ (if Js.truthy r then [repost r true] else [])
    /\ (Js.truthy (likeUri b) = true ->
        setFavorited st (IdBundle b) false w
        = [network (deleteLike (likeUri b)); favorited false; like None false])
    /\ (Js.truthy (repostUri b) = true ->
        setReblogged st (IdBundle b) false w
        = [network (deleteRepost (repostUri b)); reblogged false; repost None false]).
Proof.
  intros Hon Hp Hu Hune Hc Hcne inst like repost favorited reblogged dbErr w.
  assert (Htu : Js.truthy (Some u) = true).
  { simpl. by rewrite (proj2 (String.eqb_neq _ _) Hune). }
  assert (Htc : Js.truthy (Some c) = true).
  { simpl. by rewrite (proj2 (String.eqb_neq _ _) Hcne). }
  subst inst like repost favorited reblogged w.
  unfold setFavorited, setReblogged, isAtproto. rewrite Hon, Hp.
  rewrite bool_decide_eq_true_2 by done. simpl. rewrite Hu, Hc, Htu, Htc. simpl.
  rewrite ?Hu, ?app_nil_r. simpl.
  split; [done|]. split; [done|].
  split; intros ->; simpl; by rewrite Hu.
Qed.

End InteractionMore.

(* ===================================================================== *)
(** * More on local deletion *)
(* ===================================================================== *)

Section DeleteMore.
Import DeleteStatuses.

Lemma filter_filter_ids (ids1 ids2 : list string) (l : list Summary) :
  List.filter (fun s => negb (hasId ids2 (su_id s)))
    (List.filter (fun s => negb (hasId ids1 (su_id s))) l)
  = List.filter (fun s => negb (hasId (ids1 ++ ids2) (su_id s))) l.
Proof.
  induction l as [|x l IH]; simpl; [done|].
  assert (Happ : hasId (ids1 ++ ids2) (su_id x)
                 = hasId ids1 (su_id x) || hasId ids2 (su_id x)).
  { unfold hasId. apply eq_true_iff_eq.
    rewrite orb_true_iff, !bool_decide_eq_true. apply elem_of_app. }
  rewrite Happ.
  destruct (hasId ids1 (su_id x)); simpl; [done|].
  destruct (hasId ids2 (su_id x)); simpl; by rewrite IH.
Qed.

Lemma filter_no_ids (l : list Summary) :
  List.filter (fun s => negb (hasId [] (su_id s))) l = l.
Proof.
  assert (Hn : forall i, hasId [] i = false).
  { intros i. apply bool_decide_eq_false_2, not_elem_of_nil. }
  induction l as [|x l IH]; [done|]. cbn [List.filter]. rewrite Hn. cbn [negb].
  by rewrite IH.
Qed.

Lemma filter_ids_ext (ids1 ids2 : list string) (l : list Summary) :
  (forall i, i ∈ ids1 <-> i ∈ ids2) ->
  List.filter (fun s => negb (hasId ids1 (su_id s))) l
  = List.filter (fun s => negb (hasId ids2 (su_id s))) l.
Proof.
  intros Hext. apply filter_ext. intros x. f_equal. unfold hasId.
  apply eq_true_iff_eq. rewrite !bool_decide_eq_true. apply Hext.
Qed.

Lemma filterKey_compose (inst : string) (tf : string -> bool) (ids1 ids2 : list string)
    (m : gmap (string * string) (list Summary)) :
  filterKey inst tf (fun id => negb (hasId ids2 id))
    (filterKey inst tf (fun id => negb (hasId ids1 id)) m)
  = filterKey inst tf (fun id => negb (hasId (ids1 ++ ids2) id)) m.
Proof.
  apply map_eq. intros k. rewrite !filterKey_lookup, <- option_fmap_compose.
  apply option_fmap_ext. intros l. simpl.
  destruct (_ && _); [apply filter_filter_ids | done].
Qed.

Lemma filterKey_none (inst : string) (tf : string -> bool)
    (m : gmap (string * string) (list Summary)) :
  filterKey inst tf (fun id => negb (hasId [] id)) m = m.
Proof.
  apply map_eq. intros k. rewrite filterKey_lookup.
  destruct (m !! k) as [l|]; simpl; [|done].
  destruct (_ && _); [by rewrite filter_no_ids | done].
Qed.

Lemma filterKey_ext (inst : string) (tf : string -> bool) (ids1 ids2 : list string)
    (m : gmap (string * string) (list Summary)) :
  (forall i, i ∈ ids1 <-> i ∈ ids2) ->
  filterKey inst tf (fun id => negb (hasId ids1 id)) m
  = filterKey inst tf (fun id => negb (hasId ids2 id)) m.
Proof.
  intros Hext. apply map_eq. intros k. rewrite !filterKey_lookup.
  apply option_fmap_ext. intros l.
  destruct (_ && _); [by apply filter_ids_ext | done].
Qed.

(** X16. Removing ids from the timelines of the store composes: removing
    one list of ids and then another is removing both at once, in either
    order; removing the same ids again changes nothing; removing no id
    leaves the store as it is.  This holds for the removal of statuses and
    for the removal of notifications. *)
Theorem delete_ids_compose st inst ids1 ids2 :
  (deleteStatusIdsFromStore (deleteStatusIdsFromStore st inst ids1) inst ids2
   = deleteStatusIdsFromStore st inst (ids1 ++ ids2)
   /\ deleteStatusIdsFromStore (deleteStatusIdsFromStore st inst ids1) inst ids2
      = deleteStatusIdsFromStore (deleteStatusIdsFromStore st inst ids2) inst ids1
   /\ deleteStatusIdsFromStore (deleteStatusIdsFromStore st inst ids1) inst ids1
      = deleteStatusIdsFromStore st inst ids1
   /\ deleteStatusIdsFromStore st inst [] = st)
  /\ (deleteNotificationIdsFromStore (deleteNotificationIdsFromStore st inst ids1) inst ids2
      = deleteNotificationIdsFromStore st inst (ids1 ++ ids2)
      /\ deleteNotificationIdsFromStore (deleteNotificationIdsFromStore st inst ids1) inst ids2
         = deleteNotificationIdsFromStore (deleteNotificationIdsFromStore st inst ids2)
             inst ids1
      /\ deleteNotificationIdsFromStore (deleteNotificationIdsFromStore st inst ids1) inst ids1
         = deleteNotificationIdsFromStore st inst ids1
      /\ deleteNotificationIdsFromStore st inst [] = st).
Proof.
  assert (Hswap : forall i, i ∈ ids1 ++ ids2 <-> i ∈ ids2 ++ ids1).
  { intros i. rewrite !elem_of_app. tauto. }
  assert (Htwice : forall i, i ∈ ids1 ++ ids1 <-> i ∈ ids1).
  { intros i. rewrite elem_of_app. tauto. }
  unfold deleteStatusIdsFromStore, deleteNotificationIdsFromStore,
    filterItemIdsFromTimelines.
  destruct st as [on ci tok proto sums toAdd stale next getPost]. simpl.
  split; (split; [|split; [|split]]).
  all: rewrite ?filterKey_compose, ?filterKey_none; try done.
  all: f_equal; by apply filterKey_ext.
Qed.

Lemma uniqueFrom_NoDup seen ids : NoDup (uniqueFrom seen ids).
Proof.
  revert seen. induction ids as [|i ids IH]; intros seen; simpl; [constructor|].
  destruct (decide (i ∈ seen)); [apply IH|].
  constructor; [|apply IH]. rewrite elem_of_uniqueFrom. set_solver.
Qed.

(** X17. The ids handed to the deletion of a Protocol-A status: the list
    of status ids has no id twice and no empty id, starts with the status
    itself when its id is not empty, and holds nothing but the status and
    the statuses that reblogged it; the list of notification ids has no id
    twice and holds exactly the ids the query answered. *)
Theorem ids_to_delete q inst S :
  let sids := statusIdsToDelete q inst S in
  let nids := notificationIdsToDelete q inst S in
  NoDup sids
  /\ (EmptyString ∉ sids)
  /\ (S <> EmptyString -> head sids = Some S)
  /\ (forall i, i ∈ sids -> i = S \/ i ∈ getIdsThatRebloggedThisStatus q inst S)
  /\ NoDup nids
  /\ (forall n, n ∈ nids <-> n ∈ getNotificationIdsForStatuses q inst sids).
Proof.
  intros sids nids. subst sids nids.
  unfold statusIdsToDelete, notificationIdsToDelete, unique.
  split; [apply uniqueFrom_NoDup|]. split; [|split; [|split; [|split]]].
  - intros Hin. fold (unique (nonEmpty (S :: getIdsThatRebloggedThisStatus q inst S))) in Hin.
    apply elem_of_unique, elem_of_nonEmpty in Hin as [_ Hne]. done.
  - intros Hne. unfold nonEmpty. simpl.
    rewrite (proj2 (String.eqb_neq _ _) Hne). simpl.
    by destruct (decide (S ∈ (∅ : gset string))) as [Hin | _]; [set_solver|].
  - intros i Hin.
    fold (unique (nonEmpty (S :: getIdsThatRebloggedThisStatus q inst S))) in Hin.
    apply elem_of_unique, elem_of_nonEmpty in Hin as [Hin _].
    apply elem_of_cons in Hin as [-> | Hin]; [by left | by right].
  - apply uniqueFrom_NoDup.
  - intros n. apply (elem_of_unique _ n).
Qed.

End DeleteMore.

(* ===================================================================== *)
(** * Deleting a status *)
(* ===================================================================== *)

Section DeleteActionFacts.
Import Delete.
Context {R : Type}.

(** X18. Deleting with an id that is no post uri, on a Protocol-B
    account: when the id is not a string that starts with [at://], no
    request is sent and nothing is deleted locally; the two error messages
    are shown and the call fails with [Invalid post URI for ATProto
    delete.]. *)
Theorem delete_rejects_invalid_uri st statusId (answer : Settled R) :
  currentAccountProtocol st = Some Atproto ->
  invalidPostUri statusId = true ->
  doDeleteStatus st statusId answer
  = ([toast (Interaction.Say "Error: Invalid post information for delete.");
      toast (Interaction.SayFormatted "intl.unableToDelete"
               "Invalid post URI for ATProto delete.")],
     Thrown (Some "Invalid post URI for ATProto delete.")).
Proof.
  intros Hp Hinv. unfold doDeleteStatus. rewrite Hp.
  rewrite bool_decide_eq_true_2 by done.
  destruct statusId as [s | b]; simpl in *; [|done].
  by destruct (Js.startsWith s "at://").
Qed.

(** X19. A status is deleted locally only after the server deleted it:
    the trace of [doDeleteStatus] holds a local deletion exactly when a
    request was sent and was answered, and then it is one deletion, for
    the current instance, the id and the protocol of the call, followed by
    the message [intl.statusDeleted]; when the request is rejected the
    call fails with the error of the request, after showing it, and
    nothing is deleted locally.  Run on a Protocol-B account for a post
    uri, the local deletion leaves no summary with that id in any timeline
    of the instance other than the notifications, and asks the database to
    delete that post. *)
Theorem delete_locally_after_server st statusId (answer : Settled R) :
  let run := doDeleteStatus st statusId answer in
  let local :=
    deleteStatusLocally (currentInstance st) statusId (currentAccountProtocol st) in
  ((exists e, isLocalDeletion e = true /\ e ∈ fst run)
   <-> (exists c r, fst run = [network c; local; toast (Interaction.Say "intl.statusDeleted")]
                    /\ answer = Resolved r))
  /\ (forall e c, answer = Rejected e -> network c ∈ fst run ->
        fst run = [network c; unableToDelete e] /\ snd run = Thrown e)
  /\ (forall q pdsHostname u r,
        currentAccountProtocol st = Some Atproto -> statusId = Interaction.IdString u ->
        Js.startsWith u "at://" = true -> answer = Resolved r ->
        snd run = Success statusId
        /\ exists st',
             runDeleteStatusLocally q pdsHostname st local
             = Some (st', [DeleteStatuses.deleteAtprotoPost pdsHostname u])
             /\ forall tl l x,
                  tl <> "notifications" ->
                  timelineItemSummaries st' !! (currentInstance st, tl) = Some l ->
                  x ∈ l -> su_id x <> u).
Proof.
  intros run local. subst run local. split; [|split].
  - unfold doDeleteStatus. split.
    + intros (e & He & Hin). revert Hin.
      repeat case_match; simplify_eq; simpl; intros Hin;
        repeat (apply elem_of_cons in Hin as [-> | Hin]; [try discriminate He|]);
        try (by apply elem_of_nil in Hin);
        by do 2 eexists.
    + intros (c & r & Htrace & ->). eexists. split; [|rewrite Htrace; right; by left].
      done.
  - intros e c -> Hin. unfold doDeleteStatus in *. revert Hin.
    repeat case_match; simplify_eq; simpl; intros Hin;
      repeat (apply elem_of_cons in Hin as [Hin | Hin]; [try discriminate Hin|]);
      try (by apply elem_of_nil in Hin); by simplify_eq.
  - intros q pdsHostname u r Hp -> Hat ->. unfold doDeleteStatus. rewrite Hp, Hat.
    rewrite bool_decide_eq_true_2 by done. simpl. split; [done|].
    unfold DeleteStatuses.doDeleteStatus. rewrite bool_decide_eq_true_2 by done.
    eexists. split; [reflexivity|].
    intros tl l x Htl Hl Hx Hid.
    unfold DeleteStatuses.deleteStatusIdsFromStore,
      DeleteStatuses.filterItemIdsFromTimelines in Hl. simpl in Hl.
    rewrite filterKey_lookup in Hl. simpl in Hl.
    rewrite (proj2 (String.eqb_eq _ _) eq_refl) in Hl.
    unfold DeleteStatuses.notNotificationTimeline in Hl.
    rewrite (proj2 (String.eqb_neq _ _) Htl) in Hl. simpl in Hl.
    destruct (timelineItemSummaries st !! (currentInstance st, tl)) as [l0|]; [|done].
    injection Hl as <-. apply filter_removes in Hx as [_ Hx].
    apply Hx. rewrite Hid. by left.
Qed.

End DeleteActionFacts.

(* ===================================================================== *)
(** * Like and repost state of the cached statuses *)
(* ===================================================================== *)

Section MixinFacts.
Import AtprotoMixins.


Lemma updated_lookup (data : TimelineData) postUri updateFn k :
  fst (_updateAtprotoStatusInAllTimelines data postUri updateFn) !! k
  = map (fun item => if isTarget postUri item then updateFn <$> item else item)
      <$> data !! k.
Proof. unfold _updateAtprotoStatusInAllTimelines. simpl. apply lookup_fmap. Qed.

Lemma map_untouched postUri updateFn (items : list (option TimelineItem)) :
  existsb (isTarget postUri) items = false ->
  map (fun item => if isTarget postUri item then updateFn <$> item else item) items = items.
Proof.
  induction items as [|item items IH]; simpl; [done|].
  intros [Hitem Hrest]%orb_false_iff. rewrite Hitem. f_equal. by apply IH.
Qed.

(** X21. [setPostLikeUri] and [setPostRepostUri] change a cached status in
    place and nothing else: every timeline array keeps its length, and at
    each position the entry is the old one, unless the old one is a
    Protocol-B status whose id is the post's uri, in which case it is that
    status updated, with its id and protocol as before; when no array holds
    such a status the store is not written and the arrays are as they
    were. *)
Theorem reference_update_in_place (data : TimelineData) postUri reference flag :
  forall result update,
    (result = setPostLikeUri data postUri reference flag
     /\ update = likeUpdate reference flag)
    \/ (result = setPostRepostUri data postUri reference flag
        /\ update = repostUpdate reference flag) ->
    (forall k, fst result !! k = None <-> data !! k = None)
    /\ (forall k items items',
          data !! k = Some items -> fst result !! k = Some items' ->
          length items' = length items
          /\ forall i item,
               items !! i = Some item ->
               (isTarget postUri item = false /\ items' !! i = Some item)
               \/ exists status,
                    item = Some status /\ id status = postUri
                    /\ protocol status = Some "atproto"
                    /\ items' !! i = Some (Some (update status))
                    /\ id (update status) = postUri
                    /\ protocol (update status) = Some "atproto")
    /\ (snd result = false -> fst result = data).
Proof.
  intros result update Hres.
  assert (Hgen : result = _updateAtprotoStatusInAllTimelines data postUri update
                 /\ (forall s, id (update s) = id s /\ protocol (update s) = protocol s)).
  { destruct Hres as [[-> ->] | [-> ->]]; split; done. }
  clear Hres. destruct Hgen as [-> Hkeep]. split; [|split].
  - intros k. rewrite updated_lookup. by destruct (data !! k).
  - intros k items items' Hk Hk'. rewrite updated_lookup, Hk in Hk'.
    injection Hk' as <-. split; [apply length_map|].
    intros i item Hi.
    change (map ?f ?l) with (f <$> l). rewrite list_lookup_fmap, Hi. simpl.
    destruct (isTarget postUri item) eqn:Ht; [right | by left].
    destruct item as [status|]; [|done]. simpl in Ht.
    apply andb_true_iff in Ht as [Hid Hproto].
    apply String.eqb_eq in Hid. apply bool_decide_eq_true in Hproto.
    exists status. destruct (Hkeep status) as [Hi' Hp']. rewrite Hi', Hp'. done.
  - unfold _updateAtprotoStatusInAllTimelines. simpl. intros Hno.
    apply bool_decide_eq_false in Hno.
    apply map_eq. intros k. rewrite lookup_fmap.
    destruct (data !! k) as [items|] eqn:Hk; simpl; [|done]. f_equal.
    apply map_untouched. destruct (existsb _ items) eqn:He; [|done].
    destruct Hno. by exists k, items.
Qed.

End MixinFacts.

(* ===================================================================== *)
(** * The posts store and the feed timelines of Protocol B *)
(* ===================================================================== *)


Section PostsStoreFacts.
Import AtprotoPosts.
Context `{C : Storage} (L : StorageLaws C).







End PostsStoreFacts.

Section PostsDeleteFacts.
Import AtprotoPosts.





Import AtprotoFeeds.




End PostsDeleteFacts.

(* ===================================================================== *)
(** * Notifications of Protocol B *)
(* ===================================================================== *)

Section NotificationFacts.
Import AtprotoNotifications.




End NotificationFacts.

(* ===================================================================== *)
(** * The cursor store *)
(* ===================================================================== *)

Section CursorStoreFacts.
Import Cursor.
Context `{C : Storage} (L : StorageLaws C).


End CursorStoreFacts.

(* ===================================================================== *)
(** * Client-side bookmarks *)
(* ===================================================================== *)

Lemma plainBookmarkStorage_laws : AtprotoBookmarks.StorageLaws AtprotoBookmarks.plainStorage.
Proof. by split. Qed.

Section BookmarkFacts.
Import AtprotoBookmarks BookmarkMixins.
Context `{C : Storage} (L : StorageLaws C).
Variable getTime : string -> Z.

Lemma bookmark_insertSorted_perm cmp x l : insertSorted cmp x l ≡ₚ x :: l.
Proof.
  induction l as [|y l IH]; simpl; [done|].
  destruct (cmp x y <=? 0); [done|]. rewrite IH. apply Permutation_swap.
Qed.

Lemma bookmark_sort_perm cmp l : sort cmp l ≡ₚ l.
Proof.
  induction l as [|x l IH]; simpl; [done|].
  rewrite bookmark_insertSorted_perm. by f_equiv.
Qed.

Lemma existsb_listed postUri l :
  existsb (fun bm => String.eqb (AtprotoBookmarks.postUri bm) postUri) l = true
  <-> postUri ∈ AtprotoBookmarks.postUri <$> l.
Proof.
  rewrite existsb_exists, list_elem_of_fmap. split.
  - intros (bm & Hin & Heq). apply String.eqb_eq in Heq.
    exists bm. split; [done|]. by apply list_elem_of_In.
  - intros (bm & Heq & Hin). exists bm. split; [by apply list_elem_of_In|].
    by apply String.eqb_eq.
Qed.


(** The list of bookmarks after a bookmark was added. *)
Lemma added_list postUri now (l : list BookmarkRecord) :
  let l' :=
    if existsb (fun bm => String.eqb (AtprotoBookmarks.postUri bm) postUri) l then l
    else sort (newestFirst getTime) (mkBookmark postUri now :: l) in
  (forall u, u ∈ AtprotoBookmarks.postUri <$> l'
             <-> u = postUri \/ u ∈ AtprotoBookmarks.postUri <$> l)
  /\ (NoDup (AtprotoBookmarks.postUri <$> l) -> NoDup (AtprotoBookmarks.postUri <$> l')).
Proof.
  intros l'. subst l'.
  destruct (existsb _ l) eqn:Hex.
  - apply existsb_listed in Hex. split; [|done].
    intros u. split; [by right | by intros [-> | Hu]].
  - assert (Hnot : postUri ∉ AtprotoBookmarks.postUri <$> l).
    { intros Hin. apply existsb_listed in Hin. congruence. }
    split.
    + intros u. rewrite bookmark_sort_perm. simpl. by rewrite elem_of_cons.
    + intros Hnd. rewrite bookmark_sort_perm. simpl. by constructor.
Qed.

Lemma add_runs st db pdsHostname postUri now :
  guarded st postUri = false ->
  exists db',
    AtprotoBookmarks.addAtprotoBookmark db pdsHostname postUri now
    = Some (db', mkBookmark postUri now)
    /\ is_Some (db' !! (pdsHostname, postUri))
    /\ (is_Some (db !! (pdsHostname, postUri)) -> db' = db)
    /\ forall k, k <> (pdsHostname, postUri) -> db' !! k = db !! k.
Proof.
  intros Hg. unfold guarded in Hg. apply orb_false_iff in Hg as [_ Hne].
  unfold AtprotoBookmarks.addAtprotoBookmark. rewrite Hne.
  destruct (db !! (pdsHostname, postUri)) as [existing|] eqn:Hdb.
  - exists db. rewrite Hdb. by repeat split.
  - eexists. split; [reflexivity|]. rewrite clone_postUri. simpl.
    split; [rewrite lookup_insert_eq; by eexists|].
    split; [by intros [? ?]|]. intros k Hk. by apply lookup_insert_ne.
Qed.



Lemma bookmarkUpdate_twice (flag : bool) (postUri : string)
    (data : AtprotoMixins.TimelineData) :
  fst (AtprotoMixins._updateAtprotoStatusInAllTimelines
         (fst (AtprotoMixins._updateAtprotoStatusInAllTimelines data postUri
                 (bookmarkUpdate flag)))
         postUri (bookmarkUpdate flag))
  = fst (AtprotoMixins._updateAtprotoStatusInAllTimelines data postUri (bookmarkUpdate flag)).
Proof.
  apply map_eq. intros k. rewrite !updated_lookup.
  destruct (data !! k) as [items|]; simpl; [|done]. f_equal.
  rewrite map_map. apply map_ext. intros item.
  destruct item as [status|]; [|done]. simpl.
  destruct (String.eqb (AtprotoMixins.id status) postUri
            && bool_decide (AtprotoMixins.protocol status = Some "atproto")) eqn:Ht;
    simpl; by rewrite Ht.
Qed.

(** X30. Bookmarking twice is bookmarking once, and nothing changes
    without success: with a session and a post uri, a second
    [addAtprotoBookmark] of the same post, at any later time, leaves the
    store and the database as the first one left them; and whenever
    [addAtprotoBookmark] or [removeAtprotoBookmark] shows no message, or
    the message of a failure, the store and the database are as before. *)
Theorem bookmark_twice_is_once st db pdsHostname postUri now now' :
  (guarded st postUri = false ->
   let added := addAtprotoBookmark getTime st db pdsHostname postUri now None in
   addAtprotoBookmark getTime (fst (fst added)) (snd (fst added)) pdsHostname postUri now'
     None
   = added)
  /\ forall dbError,
       let added := addAtprotoBookmark getTime st db pdsHostname postUri now dbError in
       let removed := removeAtprotoBookmark st db pdsHostname postUri dbError in
       (snd added <> ["Bookmarked!"] -> fst added = (st, db))
       /\ (snd removed <> ["Bookmark removed."] -> fst removed = (st, db))
       /\ (guarded st postUri = true -> snd added = [] /\ snd removed = [])
       /\ (forall message, dbError = Some message ->
             guarded st postUri = false ->
             snd added = ["Failed to add bookmark: " +:+ message]
             /\ snd removed = ["Failed to remove bookmark: " +:+ message]).
Proof.
  split.
  - intros Hg. cbv zeta.
    destruct (add_runs st db pdsHostname postUri now Hg) as (db' & Hadd & Hin & _ & _).
    destruct (add_runs st db' pdsHostname postUri now' Hg) as (db'' & Hadd' & _ & Hsame & _).
    specialize (Hsame Hin). subst db''.
    remember (addAtprotoBookmark getTime st db pdsHostname postUri now None) as added
      eqn:Ha.
    unfold addAtprotoBookmark in Ha. rewrite Hg, Hadd in Ha. subst added. cbn [fst snd].
    unfold addAtprotoBookmark.
    match goal with
    | |- context [guarded ?st' postUri] =>
        change (guarded st' postUri) with (guarded st postUri)
    end.
    rewrite Hg, Hadd'.
    cbn [atprotoBookmarkedPostUris atprotoBookmarksList timelineData
         currentAtprotoSessionDid isAtprotoSessionActive default option.from_option id].
    destruct (added_list postUri now (default [] (atprotoBookmarksList st))) as [Hlist _].
    cbv zeta in Hlist.
    match goal with
    | |- context [existsb ?f (if ?c then ?x else ?y)] =>
        assert (Hex : existsb f (if c then x else y) = true)
          by (apply existsb_listed, Hlist; by left)
    end.
    rewrite Hex, bookmarkUpdate_twice. do 4 f_equal. set_solver.
  - intros dbError added removed. subst added removed.
    unfold addAtprotoBookmark, removeAtprotoBookmark.
    destruct (guarded st postUri) eqn:Hg.
    + by repeat split.
    + destruct (add_runs st db pdsHostname postUri now Hg) as (db' & Hadd & _).
      rewrite Hadd. unfold AtprotoBookmarks.removeAtprotoBookmark.
      assert (Hne : String.eqb postUri EmptyString = false).
      { unfold guarded in Hg. by apply orb_false_iff in Hg as [_ ?]. }
      rewrite Hne. destruct dbError as [message|]; simpl.
      * split; [done|]. split; [done|]. split; [done|]. by intros ? [= <-].
      * split; [done|]. split; [done|]. split; [done|]. done.
Qed.

End BookmarkFacts.
(* ===================================================================== *)
(** * The properties above on the sample data *)
(* ===================================================================== *)

Lemma merge_keeps_every_id_witness :
  SortItemSummariesLaws referenceSorts
  /\ exists l,
       getForTimeline_timelineItemSummaries
         (@Timeline.addPagedTimelineItemSummaries referenceSorts Sample.homeStore
            "mastodon.example" "home" [Sample.a'; Sample.c])
         "mastodon.example" "home" = Some l
       /\ idsOf l
          = idsOf (default [] (getForTimeline_timelineItemSummaries Sample.homeStore
                                 "mastodon.example" "home"))
            ∪ idsOf [Sample.a'; Sample.c]
       /\ l ⊆ default [] (getForTimeline_timelineItemSummaries Sample.homeStore
                            "mastodon.example" "home") ++ [Sample.a'; Sample.c].
Proof.
  split; [exact referenceSorts_laws|].
  exact (proj2 (merge_keeps_every_id referenceSorts_laws Sample.homeStore
                  "mastodon.example" "home" [Sample.a'; Sample.c] false)).
Defined.

Lemma merge_empty_batch_witness :
  SortItemSummariesLaws referenceSorts
  /\ getForTimeline_timelineItemSummaries Sample.homeStore "mastodon.example" "home"
     = Some [Sample.a; Sample.b]
  /\ NoDup (su_id <$> [Sample.a; Sample.b])
  /\ Timeline.timelineType "home" <> "status"
  /\ @Timeline.addPagedTimelineItemSummaries referenceSorts Sample.homeStore
       "mastodon.example" "home" [] = Sample.homeStore.
Proof.
  assert (Hn : NoDup (su_id <$> [Sample.a; Sample.b])).
  { simpl. repeat constructor; set_solver. }
  assert (Ht : Timeline.timelineType "home" <> "status") by (vm_compute; discriminate).
  split; [exact referenceSorts_laws|]. split; [reflexivity|].
  split; [exact Hn|]. split; [exact Ht|].
  exact (proj1 (proj1 (merge_empty_batch referenceSorts_laws Sample.homeStore
                         "mastodon.example" "home" false)
                  [Sample.a; Sample.b] eq_refl Hn Ht)).
Defined.

Lemma showMoreItemsForTimeline_shows_all_witness :
  SortItemSummariesLaws referenceSorts
  /\ getForTimeline_timelineItemSummariesToAdd
       (fst (@ShowMore.showMoreItemsForTimeline referenceSorts MoreSamples.waitingStore
               "mastodon.example" "home"))
       "mastodon.example" "home" = Some [].
Proof.
  split; [exact referenceSorts_laws|].
  exact (proj1 (showMoreItemsForTimeline_shows_all referenceSorts_laws
                  MoreSamples.waitingStore "mastodon.example" "home")).
Defined.

Lemma showMoreItemsForThread_keeps_shown_witness :
  SortItemSummariesLaws referenceSorts
  /\ exists st',
       @ShowMore.showMoreItemsForThread referenceSorts MoreSamples.waitingThread
         "mastodon.example" "status/a" = Some st'
       /\ exists old toAdd l,
            getForTimeline_timelineItemSummaries MoreSamples.waitingThread
              "mastodon.example" "status/a" = Some old
            /\ getForTimeline_timelineItemSummariesToAdd MoreSamples.waitingThread
                 "mastodon.example" "status/a" = Some toAdd
            /\ getForTimeline_timelineItemSummariesToAdd st'
                 "mastodon.example" "status/a" = Some []
            /\ getForTimeline_timelineItemSummaries st'
                 "mastodon.example" "status/a" = Some l
            /\ length l = (length old
                           + length (filter (fun x => su_id x ∉ idsOf old) toAdd))%nat
            /\ forall x, x ∈ l <-> x ∈ old \/ (x ∈ toAdd /\ su_id x ∉ idsOf old).
Proof.
  split; [exact referenceSorts_laws|]. eexists. split; [reflexivity|].
  exact (proj2 (showMoreItemsForThread_keeps_shown referenceSorts_laws
                  MoreSamples.waitingThread "mastodon.example" "status/a")
           _ eq_refl).
Defined.



Lemma protocols_kept_apart_witness :
  currentAccountProtocol Sample.atprotoStore = Some Atproto
  /\ (forall c,
        Interaction.network c
        ∈ Interaction.setFavorited Sample.atprotoStore
            (Interaction.IdBundle Sample.postBundle) true Sample.networkUp ->
        isAtprotoCall c = true)
  /\ forall c,
       Interaction.database c
       ∉ Interaction.setFavorited Sample.atprotoStore
           (Interaction.IdBundle Sample.postBundle) true Sample.networkUp.
Proof.
  split; [reflexivity|].
  exact (proj1 (protocols_kept_apart Sample.atprotoStore
                  (Interaction.IdBundle Sample.postBundle) true Sample.networkUp _
                  (or_introl eq_refl))
           eq_refl).
Defined.

Lemma toast_only_on_failure_witness :
  (exists t, Interaction.toast t
             ∈ Interaction.setFavorited Sample.atprotoStore
                 (Interaction.IdBundle Sample.postBundle) true Sample.networkDown)
  /\ (online Sample.atprotoStore = false
      \/ Interaction.networkCalls
           (Interaction.setFavorited Sample.atprotoStore
              (Interaction.IdBundle Sample.postBundle) true Sample.networkDown) = []
      \/ (exists e, Interaction.networkAnswer Sample.networkDown = Interaction.Rejected e)
      \/ (currentAccountProtocol Sample.atprotoStore <> Some Atproto
          /\ exists e, Interaction.databaseError Sample.networkDown = Some e)).
Proof.
  assert (Ht : exists t, Interaction.toast t
                 ∈ Interaction.setFavorited Sample.atprotoStore
                     (Interaction.IdBundle Sample.postBundle) true Sample.networkDown).
  { eexists. vm_compute. repeat first [left | right]. }
  split; [exact Ht|].
  exact (toast_only_on_failure Sample.atprotoStore (Interaction.IdBundle Sample.postBundle)
           true Sample.networkDown _ (or_introl eq_refl) Ht).
Defined.

Lemma atproto_success_records_reference_witness :
  online Sample.atprotoStore = true
  /\ currentAccountProtocol Sample.atprotoStore = Some Atproto
  /\ Interaction.uri Sample.postBundle = Some "at://did:plc:alice/app.bsky.feed.post/3k"
  /\ Interaction.cid Sample.postBundle = Some "bafyP"
  /\ Interaction.setFavorited Sample.atprotoStore (Interaction.IdBundle Sample.postBundle) true
       (Interaction.mkWorld
          (Interaction.Resolved (Some "at://did:plc:me/app.bsky.feed.like/7a")) None)
     = [Interaction.network
          (Interaction.likePost (Some "at://did:plc:alice/app.bsky.feed.post/3k")
             (Some "bafyP"));
        Interaction.store
          (Interaction.setStatusFavorited "bsky.social"
             (Interaction.IdString "at://did:plc:alice/app.bsky.feed.post/3k") true
             (Some Atproto) false);
        Interaction.store
          (Interaction.setPostLikeUri "bsky.social"
             (Some "at://did:plc:alice/app.bsky.feed.post/3k")
             (Some "at://did:plc:me/app.bsky.feed.like/7a") true)].
Proof.
  split; [reflexivity|]. split; [reflexivity|]. split; [reflexivity|]. split; [reflexivity|].
  exact (proj1 (atproto_success_records_reference Sample.atprotoStore Sample.postBundle
                  "at://did:plc:alice/app.bsky.feed.post/3k" "bafyP"
                  (Some "at://did:plc:me/app.bsky.feed.like/7a")
                  eq_refl eq_refl eq_refl ltac:(discriminate) eq_refl ltac:(discriminate)
                  None)).
Defined.

Lemma delete_rejects_invalid_uri_witness :
  currentAccountProtocol Sample.atprotoStore = Some Atproto
  /\ Delete.invalidPostUri (Interaction.IdString "42") = true
  /\ Delete.doDeleteStatus Sample.atprotoStore (Interaction.IdString "42")
       (Delete.Resolved tt)
     = ([Delete.toast (Interaction.Say "Error: Invalid post information for delete.");
         Delete.toast (Interaction.SayFormatted "intl.unableToDelete"
                         "Invalid post URI for ATProto delete.")],
        Delete.Thrown (Some "Invalid post URI for ATProto delete.")).
Proof.
  split; [reflexivity|]. split; [reflexivity|].
  exact (delete_rejects_invalid_uri Sample.atprotoStore (Interaction.IdString "42")
           (Delete.Resolved tt) eq_refl eq_refl).
Defined.

Lemma reference_update_in_place_witness :
  exists items',
    fst (AtprotoMixins.setPostLikeUri MoreSamples.cachedTimelines
           "at://did:plc:alice/app.bsky.feed.post/3k"
           (Some "at://did:plc:me/app.bsky.feed.like/7a") true)
    !! ("timelineData_timelineItemSummaries", "bsky.social", "home") = Some items'
    /\ length items' = length [None; Some MoreSamples.cachedP]
    /\ ((AtprotoMixins.isTarget "at://did:plc:alice/app.bsky.feed.post/3k"
           (Some MoreSamples.cachedP) = false
         /\ items' !! 1%nat = Some (Some MoreSamples.cachedP))
        \/ exists status,
             Some MoreSamples.cachedP = Some status
             /\ AtprotoMixins.id status = "at://did:plc:alice/app.bsky.feed.post/3k"
             /\ AtprotoMixins.protocol status = Some "atproto"
             /\ items' !! 1%nat
                = Some (Some (AtprotoMixins.likeUpdate
                                (Some "at://did:plc:me/app.bsky.feed.like/7a") true status))
             /\ AtprotoMixins.id
                  (AtprotoMixins.likeUpdate
                     (Some "at://did:plc:me/app.bsky.feed.like/7a") true status)
                = "at://did:plc:alice/app.bsky.feed.post/3k"
             /\ AtprotoMixins.protocol
                  (AtprotoMixins.likeUpdate
                     (Some "at://did:plc:me/app.bsky.feed.like/7a") true status)
                = Some "atproto").
Proof.
  eexists. split; [vm_compute; reflexivity|].
  pose proof (proj1 (proj2 (reference_update_in_place MoreSamples.cachedTimelines
                              "at://did:plc:alice/app.bsky.feed.post/3k"
                              (Some "at://did:plc:me/app.bsky.feed.like/7a") true _ _
                              (or_introl (conj eq_refl eq_refl))))
                ("timelineData_timelineItemSummaries", "bsky.social", "home")
                [None; Some MoreSamples.cachedP] _ eq_refl eq_refl) as [Hlen Hat].
  split; [exact Hlen|]. exact (Hat 1%nat (Some MoreSamples.cachedP) eq_refl).
Defined.






Lemma bookmark_twice_is_once_witness :
  AtprotoBookmarks.StorageLaws AtprotoBookmarks.plainStorage
  /\ BookmarkMixins.guarded MoreSamples.bookmarkSession
       "at://did:plc:alice/app.bsky.feed.post/3k" = false
  /\ (let added :=
        @BookmarkMixins.addAtprotoBookmark AtprotoBookmarks.plainStorage
          MoreSamples.sampleTime MoreSamples.bookmarkSession ∅ "bsky.social"
          "at://did:plc:alice/app.bsky.feed.post/3k" "2024-05-04T00:00:00.000Z" None in
      @BookmarkMixins.addAtprotoBookmark AtprotoBookmarks.plainStorage
        MoreSamples.sampleTime (fst (fst added)) (snd (fst added)) "bsky.social"
        "at://did:plc:alice/app.bsky.feed.post/3k" "2024-05-05T00:00:00.000Z" None
      = added).
Proof.
  split; [exact plainBookmarkStorage_laws|]. split; [reflexivity|].
  exact (proj1 (bookmark_twice_is_once plainBookmarkStorage_laws MoreSamples.sampleTime
                  MoreSamples.bookmarkSession ∅ "bsky.social"
                  "at://did:plc:alice/app.bsky.feed.post/3k"
                  "2024-05-04T00:00:00.000Z" "2024-05-05T00:00:00.000Z")
           eq_refl).
Defined.
